(** * Chat backend (app/backend/server.py): model and properties

    A shallow embedding of the FastAPI handlers of [server.py].  The
    document store, the upload directory, the process environment, the
    wall clock, the uuid generator and the LLM client are the handler's
    collaborators; they are gathered in a [World] that every handler
    threads through a small state-and-exception monad.

    Conventions of the embedding
    - a MongoDB collection is the list of its documents in insertion
      order; [insert_one] appends, [find_one] returns the first match;
    - a timestamp is the instant it denotes, an integer count of
      microseconds.  [datetime.isoformat] / [datetime.fromisoformat]
      convert between a datetime and its ISO-8601 text; the text of a
      UTC datetime orders as the instant does, so a stored timestamp is
      identified with its instant;
    - a field the code tests with [in] / [.get] is an [option];
    - the store operations themselves do not fail;
    - a handler runs from its first to its last store operation without
      another request in between. *)

From Stdlib Require Import ZArith Lia.
From Stdlib Require DecimalString DecimalZ.
From stdpp Require Import base decidable option list strings gmap sorting pretty.

Local Open Scope Z_scope.
Local Open Scope string_scope.

(** ** Data model *)

Definition datetime := Z.

(** Documents of [db.files], written by [upload_file]. *)
Record FileDoc := mkFileDoc {
  file_id : string;
  file_filename : string;
  file_path : string;
  file_content_type : string;
  file_size : Z;
  file_uploaded_at : datetime
}.

(** [class Message(BaseModel)]; also the shape of a document of
    [db.messages], which is always [Message.model_dump ()]. *)
Record Message := mkMessage {
  msg_id : string;
  msg_session_id : string;
  msg_role : string;
  msg_content : string;
  msg_timestamp : datetime;
  msg_files : option (list string)
}.

(** [class ChatRequest(BaseModel)]. *)
Record ChatRequest := mkChatRequest {
  req_message : string;
  req_session_id : string;
  req_files : option (list string)
}.

(** [class ChatSession(BaseModel)]. *)
Record ChatSession := mkChatSession {
  cs_id : string;
  cs_title : string;
  cs_created_at : datetime;
  cs_updated_at : datetime
}.

(** A document of [db.sessions].  [create_session] writes all four
    fields, the upsert of [chat_stream] only [id] and [updated_at], and
    [get_sessions] allows for [title], [created_at] and [updated_at] to
    be missing. *)
Record SessionDoc := mkSessionDoc {
  sess_id : string;
  sess_title : option string;
  sess_created_at : option datetime;
  sess_updated_at : option datetime
}.

Definition model_dump (s : ChatSession) : SessionDoc :=
  {| sess_id := cs_id s;
     sess_title := Some (cs_title s);
     sess_created_at := Some (cs_created_at s);
     sess_updated_at := Some (cs_updated_at s) |}.

(** [prepare_for_mongo] rewrites every datetime field as its ISO text
    and [parse_from_mongo] reads it back; on instants both are the
    identity. *)
Definition prepare_for_mongo {A : Type} (data : A) : A := data.
Definition parse_from_mongo {A : Type} (item : A) : A := item.

(** JSON values of the response bodies and of the event-stream frames. *)
Inductive Json :=
| JStr (s : string)
| JBool (b : bool)
| JInt (n : Z).

(** A JSON object, keys in the order of the dict literal. *)
Definition JsonObject := list (string * Json).

(** One frame of the event stream, [data: <json.dumps obj>] followed by
    a blank line, given by its object. *)
Definition Frame := JsonObject.

(** ** Exceptions *)

Inductive Exn :=
| HTTPException (status_code : Z) (detail : string)
| Exception (msg : string).

(** [str(e)]; Starlette prints an [HTTPException] as status and detail. *)
Definition str (e : Exn) : string :=
  match e with
  | HTTPException status_code detail => pretty status_code ++ ": " ++ detail
  | Exception msg => msg
  end.

Inductive Result (A : Type) :=
| Ok (a : A)
| Raise (e : Exn).
Arguments Ok {A} a.
Arguments Raise {A} e.

(** ** The LLM client *)

Record LlmChat := mkLlmChat {
  chat_api_key : string;
  chat_session_id : string;
  chat_system_message : string;
  chat_provider : string;
  chat_model : string
}.

Record FileContentWithMimeType := mkFileContent {
  fc_file_path : string;
  fc_mime_type : string
}.

Record UserMessage := mkUserMessage {
  um_text : string;
  um_file_contents : option (list FileContentWithMimeType)
}.

(** [LlmChat(api_key=..., session_id=..., system_message=...)]; the
    provider and the model are whatever [with_model] sets next. *)
Definition new_LlmChat (api_key session_id system_message : string) : LlmChat :=
  {| chat_api_key := api_key;
     chat_session_id := session_id;
     chat_system_message := system_message;
     chat_provider := "";
     chat_model := "" |}.

Definition with_model (chat : LlmChat) (provider model : string) : LlmChat :=
  {| chat_api_key := chat_api_key chat;
     chat_session_id := chat_session_id chat;
     chat_system_message := chat_system_message chat;
     chat_provider := provider;
     chat_model := model |}.

Definition system_message : string :=
  "You are a helpful AI assistant. You can analyze documents, images, code, and more. When generating code, use markdown format with appropriate language tags. When generating HTML code, make sure it's complete and functional.".

(** ** The world *)

(** The three collections of the database. *)
Record Db := mkDb {
  files : list FileDoc;
  messages : list Message;
  sessions : list SessionDoc
}.

(** What the handlers ask of their surroundings and do not control:
    [clock n] is the result of the [n]-th [datetime.now(timezone.utc)],
    [uuid4 n] of the [n]-th [uuid.uuid4 ()]; [send_message] is the
    outcome of the LLM call; [suffix] is [Path(name).suffix]. *)
Record Platform := mkPlatform {
  clock : nat → datetime;
  uuid4 : nat → string;
  send_message : LlmChat → UserMessage → Result string;
  suffix : string → string;
  upload_dir : string
}.

Record World := mkWorld {
  db : Db;
  disk : gmap string (list Byte.byte);
  environ : gmap string string;
  clock_reads : nat;
  uuid_draws : nat;
  platform : Platform
}.

Definition set_db (d : Db) (w : World) : World :=
  {| db := d; disk := disk w; environ := environ w;
     clock_reads := clock_reads w; uuid_draws := uuid_draws w;
     platform := platform w |}.

Definition set_disk (f : gmap string (list Byte.byte)) (w : World) : World :=
  {| db := db w; disk := f; environ := environ w;
     clock_reads := clock_reads w; uuid_draws := uuid_draws w;
     platform := platform w |}.

Definition set_environ (e : gmap string string) (w : World) : World :=
  {| db := db w; disk := disk w; environ := e;
     clock_reads := clock_reads w; uuid_draws := uuid_draws w;
     platform := platform w |}.

Definition set_clock_reads (n : nat) (w : World) : World :=
  {| db := db w; disk := disk w; environ := environ w;
     clock_reads := n; uuid_draws := uuid_draws w;
     platform := platform w |}.

Definition set_uuid_draws (n : nat) (w : World) : World :=
  {| db := db w; disk := disk w; environ := environ w;
     clock_reads := clock_reads w; uuid_draws := n;
     platform := platform w |}.

(** ** The handler monad: state and exceptions *)

Definition M (A : Type) : Type := World → Result A * World.

Definition ret {A} (a : A) : M A := fun w => (Ok a, w).

Definition raise {A} (e : Exn) : M A := fun w => (Raise e, w).

Definition bind {A B} (c : M A) (k : A → M B) : M B :=
  fun w =>
    match c w with
    | (Ok a, w') => k a w'
    | (Raise e, w') => (Raise e, w')
    end.

(** [try: c except Exception as e: h e].  What [c] wrote before it
    raised stays written. *)
Definition try_except {A} (c : M A) (h : Exn → M A) : M A :=
  fun w =>
    match c w with
    | (Ok a, w') => (Ok a, w')
    | (Raise e, w') => h e w'
    end.

Notation "'let*' x ':=' c 'in' k" := (bind c (fun x => k))
  (at level 10, x name, c at level 100, k at level 200).

(** [datetime.now(timezone.utc)] *)
Definition now : M datetime :=
  fun w =>
    (Ok (clock (platform w) (clock_reads w)),
     set_clock_reads (S (clock_reads w)) w).

(** [str(uuid.uuid4())] *)
Definition uuid : M string :=
  fun w =>
    (Ok (uuid4 (platform w) (uuid_draws w)),
     set_uuid_draws (S (uuid_draws w)) w).

(** [os.environ.get(key)] *)
Definition os_environ_get (key : string) : M (option string) :=
  fun w => (Ok (environ w !! key), w).

Definition get_db : M Db := fun w => (Ok (db w), w).

Definition modify_db (f : Db → Db) : M unit :=
  fun w => (Ok tt, set_db (f (db w)) w).

(** [await chat.send_message(user_msg)] *)
Definition chat_send_message (chat : LlmChat) (user_msg : UserMessage) : M string :=
  fun w => (send_message (platform w) chat user_msg, w).

(** ** The document store *)

(** How MongoDB compares the values of a sort key here: a missing field
    counts as null, and null comes before every value. *)
Definition bson_le (a b : option datetime) : Prop :=
  match a, b with
  | None, _ => True
  | Some _, None => False
  | Some x, Some y => (x <= y)%Z
  end.

#[global] Instance bson_le_dec a b : Decision (bson_le a b).
Proof. destruct a, b; simpl; apply _. Defined.

Section collection.
Context {A : Type}.

(** [coll.insert_one(doc)] *)
Definition insert_one (doc : A) (coll : list A) : list A := coll ++ [doc].

(** [coll.find_one(query)]: the first document that matches. *)
Definition find_one (P : A → Prop) `{∀ x, Decision (P x)} (coll : list A) : option A :=
  head (filter P coll).

(** [coll.delete_one(query)]: drops the first document that matches. *)
Fixpoint delete_one (P : A → Prop) `{∀ x, Decision (P x)} (coll : list A) : list A :=
  match coll with
  | [] => []
  | doc :: rest => if decide (P doc) then rest else doc :: delete_one P rest
  end.

(** [coll.delete_many(query)]: drops every document that matches. *)
Definition delete_many (P : A → Prop) `{∀ x, Decision (P x)} (coll : list A) : list A :=
  filter (λ doc, ¬ P doc) coll.

(** [cursor.sort(key, direction)], [direction] being [1] or [-1]. *)
Definition sort (key : A → option datetime) (direction : Z) (docs : list A) : list A :=
  if decide (direction = 1)
  then merge_sort (λ a b, bson_le (key a) (key b)) docs
  else merge_sort (λ a b, bson_le (key b) (key a)) docs.

(** [cursor.to_list(n)] *)
Definition to_list (n : nat) (docs : list A) : list A := take n docs.
End collection.

(** [db.sessions.update_one({"id": sid}, {"$set": {"updated_at": t}})]
    on the first session with that id, if there is one. *)
Fixpoint set_updated_at (sid : string) (t : datetime) (coll : list SessionDoc)
  : option (list SessionDoc) :=
  match coll with
  | [] => None
  | s :: rest =>
      if decide (sess_id s = sid)
      then Some ({| sess_id := sess_id s;
                    sess_title := sess_title s;
                    sess_created_at := sess_created_at s;
                    sess_updated_at := Some t |} :: rest)
      else cons s <$> set_updated_at sid t rest
  end.

(** The same with [upsert=True]: with no such session, one is inserted
    that has the fields of the query and of the [$set]. *)
Definition update_one_upsert (sid : string) (t : datetime) (coll : list SessionDoc)
  : list SessionDoc :=
  match set_updated_at sid t coll with
  | Some coll' => coll'
  | None =>
      insert_one {| sess_id := sid;
                    sess_title := None;
                    sess_created_at := None;
                    sess_updated_at := Some t |} coll
  end.

Definition db_files_insert_one (doc : FileDoc) : M unit :=
  modify_db (λ d, {| files := insert_one doc (files d);
                     messages := messages d; sessions := sessions d |}).

Definition db_files_find_one (fid : string) : M (option FileDoc) :=
  let* d := get_db in ret (find_one (λ doc, file_id doc = fid) (files d)).

Definition db_messages_insert_one (doc : Message) : M unit :=
  modify_db (λ d, {| files := files d;
                     messages := insert_one doc (messages d);
                     sessions := sessions d |}).

Definition db_messages_delete_many (sid : string) : M unit :=
  modify_db (λ d, {| files := files d;
                     messages := delete_many (λ m, msg_session_id m = sid) (messages d);
                     sessions := sessions d |}).

Definition db_sessions_insert_one (doc : SessionDoc) : M unit :=
  modify_db (λ d, {| files := files d; messages := messages d;
                     sessions := insert_one doc (sessions d) |}).

Definition db_sessions_update_one (sid : string) (t : datetime) : M unit :=
  modify_db (λ d, {| files := files d; messages := messages d;
                     sessions := update_one_upsert sid t (sessions d) |}).

Definition db_sessions_delete_one (sid : string) : M unit :=
  modify_db (λ d, {| files := files d; messages := messages d;
                     sessions := delete_one (λ s, sess_id s = sid) (sessions d) |}).

(** ** The handlers *)

Definition get_platform : M Platform := fun w => (Ok (platform w), w).

(** [Message(session_id=..., role=..., content=..., files=...)]: the
    default factories draw the id and read the clock. *)
Definition new_Message (session_id role content : string) (files : option (list string))
  : M Message :=
  let* id := uuid in
  let* timestamp := now in
  ret {| msg_id := id; msg_session_id := session_id; msg_role := role;
         msg_content := content; msg_timestamp := timestamp; msg_files := files |}.

(** [ChatSession(title=...)] *)
Definition new_ChatSession (title : string) : M ChatSession :=
  let* id := uuid in
  let* created_at := now in
  let* updated_at := now in
  ret {| cs_id := id; cs_title := title;
         cs_created_at := created_at; cs_updated_at := updated_at |}.

(** [GET /api/] *)
Definition root : M JsonObject := ret [("message", JStr "AI Chatbot API")].

Record UploadFile := mkUploadFile {
  up_filename : string;
  up_content_type : string;
  up_file : list Byte.byte
}.

(** [with open(path, "wb") as buffer: shutil.copyfileobj(src, buffer)] *)
Definition write_file (path : string) (content : list Byte.byte) : M unit :=
  fun w => (Ok tt, set_disk (<[path := content]> (disk w)) w).

(** [os.path.getsize(path)] *)
Definition os_path_getsize (path : string) : M Z :=
  fun w =>
    match disk w !! path with
    | Some content => (Ok (Z.of_nat (length content)), w)
    | None => (Raise (Exception "No such file or directory"), w)
    end.

(** [POST /api/upload] *)
Definition upload_file (file : UploadFile) : M JsonObject :=
  try_except
    (let* file_id := uuid in
     let* p := get_platform in
     let file_extension := suffix p (up_filename file) in
     let file_path := upload_dir p ++ "/" ++ file_id ++ file_extension in
     let* _ := write_file file_path (up_file file) in
     let* size := os_path_getsize file_path in
     let* uploaded_at := now in
     let file_doc :=
       {| file_id := file_id;
          file_filename := up_filename file;
          file_path := file_path;
          file_content_type := up_content_type file;
          file_size := size;
          file_uploaded_at := uploaded_at |} in
     let* _ := db_files_insert_one file_doc in
     ret [("id", JStr file_id);
          ("filename", JStr (up_filename file));
          ("content_type", JStr (up_content_type file));
          ("size", JInt (file_size file_doc))])
    (λ e, raise (HTTPException 500 (str e))).

(** [StreamingResponse(generate(), media_type=...)]: the body is the
    generator, which runs once the handler has returned; running it
    gives the frames it yields. *)
Record StreamingResponse := mkStreamingResponse {
  body_iterator : M (list Frame);
  media_type : string
}.

(** [not api_key]: the variable is unset, or set to the empty string. *)
Definition not_ (api_key : option string) : bool :=
  match api_key with
  | None => true
  | Some s => bool_decide (s = "")
  end.

(** The loop [for file_id in request.files] of [chat_stream], which
    appends to [file_contents]. *)
Fixpoint resolve_files (file_ids : list string)
    (file_contents : list FileContentWithMimeType)
  : M (list FileContentWithMimeType) :=
  match file_ids with
  | [] => ret file_contents
  | file_id :: rest =>
      let* file_doc := db_files_find_one file_id in
      match file_doc with
      | Some file_doc =>
          let file_content :=
            {| fc_file_path := file_path file_doc;
               fc_mime_type := file_content_type file_doc |} in
          resolve_files rest (file_contents ++ [file_content])
      | None => resolve_files rest file_contents
      end
  end.

(** The generator [generate] inside [chat_stream], closed over [chat],
    [user_msg] and [request]. *)
Definition generate (chat : LlmChat) (user_msg : UserMessage) (request : ChatRequest)
  : M (list Frame) :=
  try_except
    (let* response := chat_send_message chat user_msg in
     let* assistant_message :=
       new_Message (req_session_id request) "assistant" response None in
     let assistant_doc := prepare_for_mongo assistant_message in
     let* _ := db_messages_insert_one assistant_doc in
     ret [[("content", JStr response); ("done", JBool true)]])
    (λ e, ret [[("error", JStr (str e))]]).

(** [POST /api/chat/stream] *)
Definition chat_stream (request : ChatRequest) : M StreamingResponse :=
  try_except
    (let* api_key := os_environ_get "EMERGENT_LLM_KEY" in
     if not_ api_key
     then raise (HTTPException 500 "API key not configured")
     else
       let chat :=
         with_model
           (new_LlmChat (default "" api_key) (req_session_id request) system_message)
           "gemini" "gemini-2.0-flash" in
       let* file_contents :=
         match req_files request with
         | Some (file_id :: rest) => resolve_files (file_id :: rest) []
         | _ => ret []
         end in
       let user_msg :=
         {| um_text := req_message request;
            um_file_contents :=
              match file_contents with [] => None | _ => Some file_contents end |} in
       let* user_message :=
         new_Message (req_session_id request) "user" (req_message request)
                     (req_files request) in
       let user_doc := prepare_for_mongo user_message in
       let* _ := db_messages_insert_one user_doc in
       let* updated_at := now in
       let* _ := db_sessions_update_one (req_session_id request) updated_at in
       ret {| body_iterator := generate chat user_msg request;
              media_type := "text/event-stream" |})
    (λ e, raise (HTTPException 500 (str e))).

(** The chat endpoint as a client sees it: the handler, then the body
    of its response run to the end. *)
Definition post_chat_stream (request : ChatRequest) : M (list Frame) :=
  let* response := chat_stream request in
  body_iterator response.

(** The loop [for session in sessions] of [get_sessions]. *)
Fixpoint backfill (sessions : list SessionDoc) : M (list SessionDoc) :=
  match sessions with
  | [] => ret []
  | session :: rest =>
      let session := parse_from_mongo session in
      let title := default "New Chat" (sess_title session) in
      let* created_at :=
        match sess_created_at session with
        | Some created_at => ret created_at
        | None =>
            let* fallback := now in
            ret (default fallback (sess_updated_at session))
        end in
      let* rest := backfill rest in
      ret ({| sess_id := sess_id session;
              sess_title := Some title;
              sess_created_at := Some created_at;
              sess_updated_at := sess_updated_at session |} :: rest)
  end.

(** [db.sessions.find({}).sort("updated_at", -1).to_list(100)] *)
Definition find_sessions (d : Db) : list SessionDoc :=
  to_list 100 (sort sess_updated_at (-1) (sessions d)).

(** The body of the handler [get_sessions]: the dicts it returns.  What
    the route answers is [get_sessions_response], which passes them
    through the response model. *)
Definition get_sessions : M (list SessionDoc) :=
  let* d := get_db in
  backfill (find_sessions d).

(** [POST /api/sessions] *)
Definition create_session : M ChatSession :=
  let* session := new_ChatSession "New Chat" in
  let session_doc := prepare_for_mongo (model_dump session) in
  let* _ := db_sessions_insert_one session_doc in
  ret session.

(** [db.messages.find({"session_id": sid}).sort("timestamp", 1).to_list(1000)] *)
Definition find_messages (session_id : string) (d : Db) : list Message :=
  to_list 1000
    (sort (λ m, Some (msg_timestamp m)) 1
       (filter (λ m, msg_session_id m = session_id) (messages d))).

(** [GET /api/sessions/{session_id}/messages] *)
Definition get_messages (session_id : string) : M (list Message) :=
  let* d := get_db in
  ret (parse_from_mongo <$> find_messages session_id d).

(** [DELETE /api/sessions/{session_id}] *)
Definition delete_session (session_id : string) : M JsonObject :=
  let* _ := db_sessions_delete_one session_id in
  let* _ := db_messages_delete_many session_id in
  ret [("message", JStr "Session deleted")].

(** ** Process start *)

(** What the module body reads from the environment when it is imported,
    [load_dotenv] having merged the [.env] file into it:
    [os.environ['MONGO_URL']] and [os.environ['DB_NAME']] raise when the
    variable is unset; [CORS_ORIGINS], a comma-separated list, has a
    default.  Only these reads are modelled: what the module body does
    with the values (building the client, selecting the database,
    creating the upload directory, splitting the origins) is not. *)
Record Config := mkConfig {
  mongo_url : string;
  db_name : string;
  cors_origins : string
}.

Definition startup (env : gmap string string) : Result Config :=
  match env !! "MONGO_URL" with
  | None => Raise (Exception "KeyError: 'MONGO_URL'")
  | Some url =>
      match env !! "DB_NAME" with
      | None => Raise (Exception "KeyError: 'DB_NAME'")
      | Some name =>
          Ok {| mongo_url := url; db_name := name;
                cors_origins := default "*" (env !! "CORS_ORIGINS") |}
      end
  end.

(** ** Vocabulary of the properties *)

Definition LLM_KEY : string := "EMERGENT_LLM_KEY".

(** The credential is configured: set, and not to the empty string. *)
Definition key_configured (w : World) (key : string) : Prop :=
  environ w !! LLM_KEY = Some key ∧ key ≠ "".

(** The File Store lookup of the orchestrator. *)
Definition lookup_file (d : Db) (fid : string) : option FileDoc :=
  find_one (λ doc, file_id doc = fid) (files d).

Definition attachment (doc : FileDoc) : FileContentWithMimeType :=
  {| fc_file_path := file_path doc; fc_mime_type := file_content_type doc |}.

(** The attachments of the ids that resolve, in the order of the ids. *)
Definition attachments (d : Db) (file_ids : list string) : list FileContentWithMimeType :=
  omap (λ fid, attachment <$> lookup_file d fid) file_ids.

(** The chat client and the user message that [chat_stream] builds for a
    request when the database is [d]. *)
Definition chat_of (key : string) (request : ChatRequest) : LlmChat :=
  with_model (new_LlmChat key (req_session_id request) system_message)
             "gemini" "gemini-2.0-flash".

Definition user_msg_of (d : Db) (request : ChatRequest) : UserMessage :=
  {| um_text := req_message request;
     um_file_contents :=
       let file_contents := attachments d (default [] (req_files request)) in
       match file_contents with [] => None | _ => Some file_contents end |}.

(** The LLM call that serves [request] in world [w]. *)
Definition gateway_outcome (w : World) (key : string) (request : ChatRequest)
  : Result string :=
  send_message (platform w) (chat_of key request) (user_msg_of (db w) request).

Definition content_frame (completion : string) : Frame :=
  [("content", JStr completion); ("done", JBool true)].

Definition error_frame (text : string) : Frame := [("error", JStr text)].

Definition is_user_message (request : ChatRequest) (m : Message) : Prop :=
  msg_role m = "user" ∧ msg_session_id m = req_session_id request ∧
  msg_content m = req_message request ∧ msg_files m = req_files request.

Definition is_assistant_message (request : ChatRequest) (completion : string)
    (m : Message) : Prop :=
  msg_role m = "assistant" ∧ msg_session_id m = req_session_id request ∧
  msg_content m = completion ∧ msg_files m = None.

(** The user message that [chat_stream] persists for [request] when it
    starts in world [w], and the world it leaves behind once the
    session has been touched. *)
Definition user_message_of (w : World) (request : ChatRequest) : Message :=
  {| msg_id := uuid4 (platform w) (uuid_draws w);
     msg_session_id := req_session_id request;
     msg_role := "user";
     msg_content := req_message request;
     msg_timestamp := clock (platform w) (clock_reads w);
     msg_files := req_files request |}.

Definition touch_time (w : World) : datetime :=
  clock (platform w) (S (clock_reads w)).

Definition after_user_message (request : ChatRequest) (w : World) : World :=
  {| db := {| files := files (db w);
              messages := messages (db w) ++ [user_message_of w request];
              sessions := update_one_upsert (req_session_id request) (touch_time w)
                            (sessions (db w)) |};
     disk := disk w; environ := environ w;
     clock_reads := S (S (clock_reads w));
     uuid_draws := S (uuid_draws w);
     platform := platform w |}.

(** The assistant message that [generate] persists when it starts in
    world [w] and the LLM answers [completion]. *)
Definition assistant_message_of (w : World) (request : ChatRequest)
    (completion : string) : Message :=
  {| msg_id := uuid4 (platform w) (uuid_draws w);
     msg_session_id := req_session_id request;
     msg_role := "assistant";
     msg_content := completion;
     msg_timestamp := clock (platform w) (clock_reads w);
     msg_files := None |}.

Definition after_assistant_message (request : ChatRequest) (completion : string)
    (w : World) : World :=
  {| db := {| files := files (db w);
              messages := messages (db w) ++ [assistant_message_of w request completion];
              sessions := sessions (db w) |};
     disk := disk w; environ := environ w;
     clock_reads := S (clock_reads w);
     uuid_draws := S (uuid_draws w);
     platform := platform w |}.

(** The first session with the given id, as [update_one] and
    [delete_one] find it. *)
Definition lookup_session (d : Db) (sid : string) : option SessionDoc :=
  find_one (λ s, sess_id s = sid) (sessions d).

(** Successive readings of the wall clock do not go back. *)
Definition clock_monotone (p : Platform) : Prop :=
  ∀ i j : nat, (i ≤ j)%nat → (clock p i <= clock p j)%Z.

(** The data-model invariant on sessions: ids are unique. *)
Definition unique_session_ids (d : Db) : Prop :=
  NoDup (sess_id <$> sessions d).

(** Descending and ascending order of the two listings. *)
Definition newer_first (a b : SessionDoc) : Prop :=
  bson_le (sess_updated_at b) (sess_updated_at a).

Definition older_first (a b : Message) : Prop :=
  (msg_timestamp a <= msg_timestamp b)%Z.

(** What [get_sessions], run from [w] to [w'], returns for the stored
    record [s]. *)
Definition backfilled (w w' : World) (s out : SessionDoc) : Prop :=
  sess_id out = sess_id s ∧
  sess_updated_at out = sess_updated_at s ∧
  sess_title out = Some (default "New Chat" (sess_title s)) ∧
  match sess_created_at s, sess_updated_at s with
  | Some created_at, _ => sess_created_at out = Some created_at
  | None, Some updated_at => sess_created_at out = Some updated_at
  | None, None =>
      ∃ n : nat, (clock_reads w ≤ n < clock_reads w')%nat ∧
                 sess_created_at out = Some (clock (platform w) n)
  end.

(** A handler that neither reads nor writes the process environment: run
    with another environment it returns the same and changes the rest
    of the world the same way. *)
Definition ignores_environ {A} (c : M A) : Prop :=
  ∀ (w : World) (env : gmap string string),
    c (set_environ env w) = ((c w).1, set_environ env (c w).2).

(** ** A sample world *)

(** A clock that advances by one at each reading, ids numbered in the
    order they are drawn, and an LLM that fails on the text "fail" and
    answers "hi there" otherwise. *)
Definition sample_platform : Platform :=
  {| clock := λ n, Z.of_nat n;
     uuid4 := λ n, "id-" ++ pretty n;
     send_message := λ _ user_msg,
       if decide (um_text user_msg = "fail")
       then Raise (Exception "upstream failure")
       else Ok "hi there";
     suffix := λ _, ".txt";
     upload_dir := "/app/backend/uploads" |}.

(** One uploaded file; a session made by [create_session], one made by
    the upsert of [chat_stream], and a record from before the
    timestamps existed; three messages. *)
Definition sample_db : Db :=
  {| files :=
       [ {| file_id := "f1"; file_filename := "notes.txt";
            file_path := "/app/backend/uploads/f1.txt";
            file_content_type := "text/plain";
            file_size := 5; file_uploaded_at := 1 |} ];
     messages :=
       [ {| msg_id := "m1"; msg_session_id := "s1"; msg_role := "user";
            msg_content := "hi"; msg_timestamp := 3; msg_files := None |};
         {| msg_id := "m2"; msg_session_id := "s1"; msg_role := "assistant";
            msg_content := "hello"; msg_timestamp := 4; msg_files := None |};
         {| msg_id := "m3"; msg_session_id := "s2"; msg_role := "user";
            msg_content := "fail"; msg_timestamp := 5; msg_files := Some [] |} ];
     sessions :=
       [ {| sess_id := "s3"; sess_title := Some "Old";
            sess_created_at := None; sess_updated_at := None |};
         {| sess_id := "s2"; sess_title := None;
            sess_created_at := None; sess_updated_at := Some 6 |};
         {| sess_id := "s1"; sess_title := Some "New Chat";
            sess_created_at := Some 2; sess_updated_at := Some 9 |} ] |}.

Definition sample_world : World :=
  {| db := sample_db;
     disk := ∅;
     environ := {[ "MONGO_URL" := "mongodb://localhost:27017";
                   "DB_NAME" := "chat";
                   LLM_KEY := "secret" ]};
     clock_reads := 10;
     uuid_draws := 10;
     platform := sample_platform |}.

(** The same world with the credential unset. *)
Definition keyless_world : World :=
  set_environ (delete LLM_KEY (environ sample_world)) sample_world.

(** ** Vocabulary of the further properties *)

(** Where [upload_file] stores the content of [file] when it starts in
    world [w], under which id, and the record it writes. *)
Definition upload_id (w : World) : string := uuid4 (platform w) (uuid_draws w).

Definition upload_path (w : World) (file : UploadFile) : string :=
  upload_dir (platform w) ++ "/" ++ upload_id w ++ suffix (platform w) (up_filename file).

Definition upload_doc (w : World) (file : UploadFile) : FileDoc :=
  {| file_id := upload_id w;
     file_filename := up_filename file;
     file_path := upload_path w file;
     file_content_type := up_content_type file;
     file_size := Z.of_nat (length (up_file file));
     file_uploaded_at := clock (platform w) (clock_reads w) |}.

(** The session [s] was last updated strictly before [t], or carries no
    [updated_at] at all. *)
Definition updated_before (t : datetime) (s : SessionDoc) : Prop :=
  match sess_updated_at s with
  | Some updated_at => (updated_at < t)%Z
  | None => True
  end.

(** Every stored session carries an [updated_at], as both handlers that
    write sessions make them. *)
Definition sessions_timestamped (d : Db) : Prop :=
  Forall (λ s, is_Some (sess_updated_at s)) (sessions d).

(** ** Documents as dictionaries

    [prepare_for_mongo] and [parse_from_mongo] work on the dict of a
    document, of which they rewrite three fields.  Here the dict is a
    finite map from field names to values, and a datetime is kept apart
    from its ISO text, so that the two functions are no longer the
    identity.  [isoformat] is [datetime.isoformat], [fromisoformat] is
    [datetime.fromisoformat], which raises on a text it cannot read. *)
Module Dict.

Inductive Value :=
| VStr (s : string)
| VDatetime (t : datetime)
| VInt (n : Z)
| VList (l : list string)
| VNone.

Abbreviation Document := (gmap string Value).

(** The fields both functions look at. *)
Definition date_fields : list string := ["timestamp"; "created_at"; "updated_at"].

(** [isinstance(data.get(key), str)] *)
Definition holds_str (data : Document) (key : string) : Prop :=
  match data !! key with Some (VStr _) => True | _ => False end.

(** [isinstance(data.get(key), datetime)] *)
Definition holds_datetime (data : Document) (key : string) : Prop :=
  match data !! key with Some (VDatetime _) => True | _ => False end.

Section codec.
Context (isoformat : datetime → string) (fromisoformat : string → Result datetime).

(** [if isinstance(data.get(key), datetime): data[key] = data[key].isoformat()] *)
Definition prepare_field (key : string) (data : Document) : Document :=
  match data !! key with
  | Some (VDatetime t) => <[key := VStr (isoformat t)]> data
  | _ => data
  end.

(** What [prepare_for_mongo] makes of the value of a date field. *)
Definition encode (v : Value) : Value :=
  match v with
  | VDatetime t => VStr (isoformat t)
  | _ => v
  end.

Definition prepare_for_mongo (data : Document) : Document :=
  let data := prepare_field "timestamp" data in
  let data := prepare_field "created_at" data in
  let data := prepare_field "updated_at" data in
  data.

(** [if isinstance(item.get(key), str): item[key] = datetime.fromisoformat(item[key])] *)
Definition parse_field (key : string) (item : Document) : Result Document :=
  match item !! key with
  | Some (VStr s) =>
      match fromisoformat s with
      | Ok t => Ok (<[key := VDatetime t]> item)
      | Raise e => Raise e
      end
  | _ => Ok item
  end.

Definition parse_from_mongo (item : Document) : Result Document :=
  match parse_field "timestamp" item with
  | Raise e => Raise e
  | Ok item =>
      match parse_field "created_at" item with
      | Raise e => Raise e
      | Ok item => parse_field "updated_at" item
      end
  end.
End codec.

(** [Message.model_dump()] and [ChatSession.model_dump()] as dicts. *)
Definition message_dump (m : Message) : Document :=
  {[ "id" := VStr (msg_id m);
     "session_id" := VStr (msg_session_id m);
     "role" := VStr (msg_role m);
     "content" := VStr (msg_content m);
     "timestamp" := VDatetime (msg_timestamp m);
     "files" := match msg_files m with Some l => VList l | None => VNone end ]}.

Definition session_dump (s : ChatSession) : Document :=
  {[ "id" := VStr (cs_id s);
     "title" := VStr (cs_title s);
     "created_at" := VDatetime (cs_created_at s);
     "updated_at" := VDatetime (cs_updated_at s) ]}.

(** A stand-in for the ISO codec: the decimal numeral of the instant. *)
Definition sample_isoformat (t : datetime) : string :=
  DecimalString.NilEmpty.string_of_int (Z.to_int t).

Definition sample_fromisoformat (s : string) : Result datetime :=
  match DecimalString.NilEmpty.int_of_string s with
  | Some d => Ok (Z.of_int d)
  | None => Raise (Exception "Invalid isoformat string")
  end.

(** A message and a session to try the codec on. *)
Definition sample_message : Message :=
  {| msg_id := "m1"; msg_session_id := "s1"; msg_role := "user";
     msg_content := "hi"; msg_timestamp := 3; msg_files := None |}.

Definition sample_session : ChatSession :=
  {| cs_id := "s1"; cs_title := "New Chat"; cs_created_at := 2; cs_updated_at := 9 |}.

End Dict.

(** ** The response model of the session listing

    The route of [get_sessions] is declared with
    [response_model=List[ChatSession]]: FastAPI validates the list the
    handler returns against [ChatSession] before it answers.  A field
    with a [default_factory] that the dict lacks gets its default, so a
    missing [created_at] or [updated_at] reads the clock; [title] has no
    default and a dict without it is an error.  Every item and every
    field is gone through, errors are collected, and one error or more
    makes the response fail. *)

(** One item: the defaults are taken whether or not [title] is there. *)
Definition validate_ChatSession (session : SessionDoc) : M (option ChatSession) :=
  let* created_at :=
    match sess_created_at session with
    | Some created_at => ret created_at
    | None => now
    end in
  let* updated_at :=
    match sess_updated_at session with
    | Some updated_at => ret updated_at
    | None => now
    end in
  ret (match sess_title session with
       | Some title =>
           Some {| cs_id := sess_id session; cs_title := title;
                   cs_created_at := created_at; cs_updated_at := updated_at |}
       | None => None
       end).

Fixpoint validate_each (sessions : list SessionDoc) : M (list (option ChatSession)) :=
  match sessions with
  | [] => ret []
  | session :: rest =>
      let* item := validate_ChatSession session in
      let* items := validate_each rest in
      ret (item :: items)
  end.

(** The items when all of them are valid. *)
Fixpoint all_valid {A : Type} (items : list (option A)) : option (list A) :=
  match items with
  | [] => Some []
  | Some item :: rest =>
      match all_valid rest with
      | Some valid => Some (item :: valid)
      | None => None
      end
  | None :: _ => None
  end.

Definition response_model_sessions (sessions : list SessionDoc) : M (list ChatSession) :=
  let* items := validate_each sessions in
  match all_valid items with
  | Some valid => ret valid
  | None => raise (Exception "ResponseValidationError")
  end.

(** [GET /api/sessions] as a client sees it: the handler, then the
    response model. *)
Definition get_sessions_response : M (list ChatSession) :=
  let* sessions := get_sessions in
  response_model_sessions sessions.

(** What [GET /api/sessions], run from [w] to [w'], answers for the
    stored record [s]. *)
Definition served (w w' : World) (s : SessionDoc) (out : ChatSession) : Prop :=
  cs_id out = sess_id s ∧
  cs_title out = default "New Chat" (sess_title s) ∧
  match sess_created_at s, sess_updated_at s with
  | Some created_at, _ => cs_created_at out = created_at
  | None, Some updated_at => cs_created_at out = updated_at
  | None, None =>
      ∃ n : nat, (clock_reads w ≤ n < clock_reads w')%nat ∧
                 cs_created_at out = clock (platform w) n
  end ∧
  match sess_updated_at s with
  | Some updated_at => cs_updated_at out = updated_at
  | None =>
      ∃ n : nat, (clock_reads w ≤ n < clock_reads w')%nat ∧
                 cs_updated_at out = clock (platform w) n
  end.

(** The answer is in descending order of [updated_at]. *)
Definition newer_first_response (a b : ChatSession) : Prop :=
  (cs_updated_at b <= cs_updated_at a)%Z.

(** The sample world with the credential set to the empty string. *)
Definition empty_key_world : World :=
  set_environ (<[LLM_KEY := ""]> (environ sample_world)) sample_world.

(** The sample world without its record from before the timestamps. *)
Definition timestamped_world : World := (delete_session "s3" sample_world).2.

Local Open Scope list_scope.

(** ** The chat endpoint *)

Section chat.
Implicit Types (w : World) (request : ChatRequest) (key : string).

Lemma resolve_files_spec (file_ids : list string) acc w :
  resolve_files file_ids acc w = (Ok (acc ++ attachments (db w) file_ids), w).
Proof.
  revert acc. induction file_ids as [|fid rest IH]; intros acc.
  - simpl. unfold ret. by rewrite app_nil_r.
  - cbn [resolve_files]. unfold bind at 1. unfold db_files_find_one, bind, get_db, ret.
    unfold attachments. cbn [omap list_omap]. fold (lookup_file (db w) fid).
    destruct (lookup_file (db w) fid) as [doc|]; cbn.
    + rewrite IH. unfold attachments, attachment. by rewrite <- app_assoc.
    + by rewrite IH.
Qed.

(** With the credential configured the handler returns its streaming
    response, whatever the request. *)
Lemma chat_stream_ok w request key :
  key_configured w key →
  chat_stream request w =
    (Ok {| body_iterator :=
             generate (chat_of key request) (user_msg_of (db w) request) request;
           media_type := "text/event-stream" |},
     after_user_message request w).
Proof.
  intros [Hkey Hne].
  unfold chat_stream, try_except, bind at 1, os_environ_get.
  fold LLM_KEY. rewrite Hkey. cbn [not_]. rewrite bool_decide_eq_false_2 by done.
  cbn [default]. unfold bind at 1.
  assert (Hres :
    match req_files request with
    | Some (file_id :: rest) => resolve_files (file_id :: rest) []
    | _ => ret []
    end w = (Ok (attachments (db w) (default [] (req_files request))), w)).
  { destruct (req_files request) as [[|fid rest]|]; try done.
    by rewrite resolve_files_spec. }
  rewrite Hres. reflexivity.
Qed.

Lemma generate_ok chat user_msg request completion w :
  send_message (platform w) chat user_msg = Ok completion →
  generate chat user_msg request w =
    (Ok [content_frame completion], after_assistant_message request completion w).
Proof.
  intros Hllm. unfold generate, try_except, bind at 1, chat_send_message.
  rewrite Hllm. reflexivity.
Qed.

Lemma generate_raise chat user_msg request e w :
  send_message (platform w) chat user_msg = Raise e →
  generate chat user_msg request w = (Ok [error_frame (str e)], w).
Proof.
  intros Hllm. unfold generate, try_except, bind at 1, chat_send_message.
  rewrite Hllm. reflexivity.
Qed.

Lemma post_chat_stream_unfold w request key :
  key_configured w key →
  post_chat_stream request w =
    generate (chat_of key request) (user_msg_of (db w) request) request
             (after_user_message request w).
Proof.
  intros Hkey. unfold post_chat_stream, bind.
  by rewrite (chat_stream_ok _ _ _ Hkey).
Qed.
End chat.

(** C1. A chat request [{message, session_id, files: []}] whose LLM call
    returns a completion leaves exactly two new documents in the message
    store, the user message with the request's text followed by the
    assistant message with the completion, and its response stream is
    the single frame [{"content": completion, "done": true}]. *)
Theorem chat_success (w : World) (message session_id key completion : string) :
  let request := {| req_message := message; req_session_id := session_id;
                    req_files := Some [] |} in
  key_configured w key →
  gateway_outcome w key request = Ok completion →
  ∃ (u a : Message) (w' : World),
    post_chat_stream request w = (Ok [content_frame completion], w') ∧
    messages (db w') = messages (db w) ++ [u; a] ∧
    is_user_message request u ∧ msg_content u = message ∧
    is_assistant_message request completion a ∧ msg_content a = completion.
Proof.
  intros request Hkey Hllm.
  exists (user_message_of w request),
         (assistant_message_of (after_user_message request w) request completion),
         (after_assistant_message request completion (after_user_message request w)).
  rewrite (post_chat_stream_unfold _ _ _ Hkey).
  rewrite (generate_ok _ _ _ completion) by exact Hllm.
  split; [reflexivity|]. split; [|done].
  cbn. by rewrite <- app_assoc.
Qed.

Lemma chat_success_witness :
  key_configured sample_world "secret" ∧
  gateway_outcome sample_world "secret"
    {| req_message := "hello"; req_session_id := "s1"; req_files := Some [] |}
    = Ok "hi there" ∧
  ∃ (u a : Message) (w' : World),
    post_chat_stream
      {| req_message := "hello"; req_session_id := "s1"; req_files := Some [] |}
      sample_world = (Ok [content_frame "hi there"], w') ∧
    messages (db w') = messages (db sample_world) ++ [u; a] ∧
    is_user_message
      {| req_message := "hello"; req_session_id := "s1"; req_files := Some [] |} u ∧
    msg_content u = "hello" ∧
    is_assistant_message
      {| req_message := "hello"; req_session_id := "s1"; req_files := Some [] |}
      "hi there" a ∧
    msg_content a = "hi there".
Proof.
  split; [split; [reflexivity | discriminate] |].
  split; [reflexivity |].
  apply (chat_success sample_world "hello" "s1" "secret" "hi there").
  - split; [reflexivity | discriminate].
  - reflexivity.
Defined.

(** C2. When the LLM call of a chat request raises, the user message
    persisted before the call is the only new document of the message
    store (nothing is rolled back and no assistant message is written)
    and the response stream is the single frame [{"error": str(e)}]. *)
Theorem chat_gateway_failure (w : World) (request : ChatRequest) (key : string) (e : Exn) :
  key_configured w key →
  gateway_outcome w key request = Raise e →
  ∃ (u : Message) (w' : World),
    post_chat_stream request w = (Ok [error_frame (str e)], w') ∧
    messages (db w') = messages (db w) ++ [u] ∧
    is_user_message request u ∧
    (∀ a, a ∈ messages (db w') → msg_role a = "assistant" → a ∈ messages (db w)).
Proof.
  intros Hkey Hllm.
  exists (user_message_of w request), (after_user_message request w).
  rewrite (post_chat_stream_unfold _ _ _ Hkey).
  rewrite (generate_raise _ _ _ e) by exact Hllm.
  split; [reflexivity|]. split; [reflexivity|]. split; [done|].
  intros a Hin Hrole. cbn in Hin.
  apply elem_of_app in Hin as [Hin|Hin]; [done|].
  apply list_elem_of_singleton in Hin. subst a. discriminate.
Qed.

Lemma chat_gateway_failure_witness :
  key_configured sample_world "secret" ∧
  gateway_outcome sample_world "secret"
    {| req_message := "fail"; req_session_id := "s1"; req_files := None |}
    = Raise (Exception "upstream failure") ∧
  ∃ (u : Message) (w' : World),
    post_chat_stream
      {| req_message := "fail"; req_session_id := "s1"; req_files := None |}
      sample_world = (Ok [error_frame "upstream failure"], w') ∧
    messages (db w') = messages (db sample_world) ++ [u] ∧
    is_user_message
      {| req_message := "fail"; req_session_id := "s1"; req_files := None |} u ∧
    (∀ a, a ∈ messages (db w') → msg_role a = "assistant" →
          a ∈ messages (db sample_world)).
Proof.
  split; [split; [reflexivity | discriminate] |].
  split; [reflexivity |].
  apply (chat_gateway_failure sample_world
           {| req_message := "fail"; req_session_id := "s1"; req_files := None |}
           "secret" (Exception "upstream failure")).
  - split; [reflexivity | discriminate].
  - reflexivity.
Defined.



(** ** The session upsert *)

Section upsert.
Implicit Types (sid : string) (t : datetime) (coll : list SessionDoc).

Lemma find_one_cons {A} (P : A → Prop) `{∀ x, Decision (P x)} (x : A) (l : list A) :
  find_one P (x :: l) = if decide (P x) then Some x else find_one P l.
Proof. unfold find_one. rewrite filter_cons. by destruct (decide (P x)). Qed.

Lemma find_one_None {A} (P : A → Prop) `{∀ x, Decision (P x)} (l : list A) :
  find_one P l = None ↔ ∀ x, x ∈ l → ¬ P x.
Proof.
  unfold find_one. rewrite head_None. split.
  - intros Hnil x Hin HP. by eapply filter_nil_not_elem_of.
  - intros Hall. induction l as [|x l IH]; [done|].
    rewrite filter_cons. destruct (decide (P x)) as [HP|_].
    + exfalso. eapply Hall; [left|done].
    + apply IH. intros y Hy. apply Hall. by right.
Qed.

Lemma find_one_Some {A} (P : A → Prop) `{∀ x, Decision (P x)} (l : list A) (x : A) :
  find_one P l = Some x → x ∈ l ∧ P x.
Proof.
  unfold find_one. intros Hhd. apply head_Some_elem_of in Hhd.
  apply list_elem_of_filter in Hhd. tauto.
Qed.

Lemma find_one_insert_one_fresh {A} (P : A → Prop) `{∀ x, Decision (P x)}
    (doc : A) (l : list A) :
  find_one P l = None → P doc → find_one P (insert_one doc l) = Some doc.
Proof.
  unfold find_one, insert_one. rewrite head_None. intros Hnil HP.
  rewrite filter_app, Hnil, app_nil_l, filter_cons. by rewrite decide_True.
Qed.

Lemma set_updated_at_None sid t coll :
  find_one (λ s, sess_id s = sid) coll = None → set_updated_at sid t coll = None.
Proof.
  induction coll as [|s rest IH]; [done|].
  rewrite find_one_cons. cbn [set_updated_at].
  destruct (decide (sess_id s = sid)); [done|].
  intros Hrest. by rewrite IH.
Qed.

Lemma set_updated_at_Some sid t coll s0 :
  find_one (λ s, sess_id s = sid) coll = Some s0 →
  ∃ coll', set_updated_at sid t coll = Some coll' ∧
           length coll' = length coll ∧
           find_one (λ s, sess_id s = sid) coll' =
             Some {| sess_id := sess_id s0; sess_title := sess_title s0;
                     sess_created_at := sess_created_at s0;
                     sess_updated_at := Some t |}.
Proof.
  induction coll as [|s rest IH]; [done|].
  rewrite find_one_cons. cbn [set_updated_at].
  destruct (decide (sess_id s = sid)) as [Hid|Hid].
  - intros [= ->]. eexists. split; [done|]. split; [done|].
    rewrite find_one_cons. by rewrite decide_True.
  - intros Hrest. destruct (IH Hrest) as (coll' & -> & Hlen & Hfind).
    exists (s :: coll'). split; [done|]. split; [cbn; by rewrite Hlen|].
    rewrite find_one_cons. by rewrite decide_False.
Qed.

(** After the upsert the session is there and carries the new time;
    it is a new, minimal record exactly when there was none. *)
Lemma update_one_upsert_spec sid t coll :
  match find_one (λ s, sess_id s = sid) coll with
  | None =>
      update_one_upsert sid t coll =
        coll ++ [{| sess_id := sid; sess_title := None;
                    sess_created_at := None; sess_updated_at := Some t |}] ∧
      find_one (λ s, sess_id s = sid) (update_one_upsert sid t coll) =
        Some {| sess_id := sid; sess_title := None;
                sess_created_at := None; sess_updated_at := Some t |}
  | Some s0 =>
      length (update_one_upsert sid t coll) = length coll ∧
      find_one (λ s, sess_id s = sid) (update_one_upsert sid t coll) =
        Some {| sess_id := sess_id s0; sess_title := sess_title s0;
                sess_created_at := sess_created_at s0;
                sess_updated_at := Some t |}
  end.
Proof.
  unfold update_one_upsert.
  destruct (find_one _ coll) as [s0|] eqn:Hfind.
  - destruct (set_updated_at_Some sid t coll s0 Hfind) as (coll' & -> & Hlen & Hf).
    done.
  - rewrite (set_updated_at_None sid t coll Hfind). split; [done|].
    by apply find_one_insert_one_fresh.
Qed.
End upsert.

(** C8. Once [chat_stream] has appended the user message and touched the
    session, the session found under the request's id has an
    [updated_at] that is not before the timestamp of that message,
    provided the clock does not run backwards between the two readings.
    The touch is an upsert: with no session under that id it adds the
    minimal record [{id, updated_at}], otherwise it changes
    [updated_at] of the existing one and adds nothing. *)
Theorem touch_after_append (w : World) (request : ChatRequest) (key : string) :
  key_configured w key →
  clock_monotone (platform w) →
  ∃ (response : StreamingResponse) (u : Message) (s : SessionDoc) (t : datetime)
    (w' : World),
    chat_stream request w = (Ok response, w') ∧
    messages (db w') = messages (db w) ++ [u] ∧
    is_user_message request u ∧
    lookup_session (db w') (req_session_id request) = Some s ∧
    sess_id s = req_session_id request ∧
    sess_updated_at s = Some t ∧
    (msg_timestamp u <= t)%Z ∧
    match lookup_session (db w) (req_session_id request) with
    | None =>
        sessions (db w') =
          sessions (db w) ++
            [{| sess_id := req_session_id request; sess_title := None;
                sess_created_at := None; sess_updated_at := Some t |}]
    | Some s0 =>
        length (sessions (db w')) = length (sessions (db w)) ∧
        sess_title s = sess_title s0 ∧ sess_created_at s = sess_created_at s0
    end.
Proof.
  intros Hkey Hclock.
  pose proof (update_one_upsert_spec (req_session_id request) (touch_time w)
                (sessions (db w))) as Hup.
  assert (Hle : (clock (platform w) (clock_reads w) <= touch_time w)%Z)
    by (apply Hclock; lia).
  unfold lookup_session.
  destruct (find_one _ (sessions (db w))) as [s0|] eqn:Hfind.
  - destruct Hup as [Hlen Hf].
    eexists _, (user_message_of w request), _, (touch_time w), _.
    split; [by apply chat_stream_ok|].
    split; [done|]. split; [done|].
    split; [exact Hf|].
    apply find_one_Some in Hfind as [_ Hid].
    done.
  - destruct Hup as [Heq Hf].
    eexists _, (user_message_of w request), _, (touch_time w), _.
    split; [by apply chat_stream_ok|].
    split; [done|]. split; [done|].
    split; [exact Hf|].
    done.
Qed.

Lemma touch_after_append_witness :
  key_configured sample_world "secret" ∧
  clock_monotone (platform sample_world) ∧
  ∃ (response : StreamingResponse) (u : Message) (s : SessionDoc) (t : datetime)
    (w' : World),
    chat_stream {| req_message := "hello"; req_session_id := "s9"; req_files := None |}
      sample_world = (Ok response, w') ∧
    messages (db w') = messages (db sample_world) ++ [u] ∧
    is_user_message
      {| req_message := "hello"; req_session_id := "s9"; req_files := None |} u ∧
    lookup_session (db w') "s9" = Some s ∧
    sess_id s = "s9" ∧
    sess_updated_at s = Some t ∧
    (msg_timestamp u <= t)%Z ∧
    sessions (db w') =
      sessions (db sample_world) ++
        [{| sess_id := "s9"; sess_title := None;
            sess_created_at := None; sess_updated_at := Some t |}].
Proof.
  split; [split; [reflexivity | discriminate] |].
  split; [intros i j Hij; simpl; lia |].
  apply (touch_after_append sample_world
           {| req_message := "hello"; req_session_id := "s9"; req_files := None |}
           "secret").
  - split; [reflexivity | discriminate].
  - intros i j Hij; simpl; lia.
Defined.

(** ** Sorted, bounded listings *)

Section listing.
Context {A : Type} (key : A → option datetime).

Lemma bson_le_total a b : bson_le a b ∨ bson_le b a.
Proof. destruct a, b; simpl; lia. Qed.

Lemma bson_le_trans a b c : bson_le a b → bson_le b c → bson_le a c.
Proof. destruct a, b, c; simpl; lia. Qed.

#[local] Instance ascending_total : Total (λ a b : A, bson_le (key a) (key b)).
Proof. intros a b. apply bson_le_total. Qed.

#[local] Instance ascending_trans : Transitive (λ a b : A, bson_le (key a) (key b)).
Proof. intros a b c. apply bson_le_trans. Qed.

#[local] Instance descending_total : Total (λ a b : A, bson_le (key b) (key a)).
Proof. intros a b. apply bson_le_total. Qed.

#[local] Instance descending_trans : Transitive (λ a b : A, bson_le (key b) (key a)).
Proof. intros a b c H1 H2. by eapply bson_le_trans. Qed.

Lemma sort_ascending (docs : list A) :
  StronglySorted (λ a b, bson_le (key a) (key b)) (sort key 1 docs).
Proof. unfold sort. rewrite decide_True by done. apply StronglySorted_merge_sort; apply _. Qed.

Lemma sort_descending (docs : list A) :
  StronglySorted (λ a b, bson_le (key b) (key a)) (sort key (-1) docs).
Proof. unfold sort. rewrite decide_False by done. apply StronglySorted_merge_sort; apply _. Qed.

Lemma sort_Permutation (direction : Z) (docs : list A) :
  sort key direction docs ≡ₚ docs.
Proof. unfold sort. case_decide; apply merge_sort_Permutation. Qed.

Lemma to_list_StronglySorted (R : relation A) (n : nat) (docs : list A) :
  StronglySorted R docs → StronglySorted R (to_list n docs).
Proof.
  intros Hsorted. unfold to_list.
  rewrite <- (take_drop n docs) in Hsorted.
  by apply StronglySorted_app_1_l in Hsorted.
Qed.

Lemma to_list_length (n : nat) (docs : list A) :
  length (to_list n docs) = Nat.min n (length docs).
Proof. apply length_take. Qed.
End listing.

(** ** Listing the sessions *)

Section sessions_listing.
Implicit Types (w : World) (docs out : list SessionDoc).

Lemma backfilled_weaken w1 w1' w w' s o :
  platform w1 = platform w →
  (clock_reads w ≤ clock_reads w1)%nat →
  (clock_reads w1' ≤ clock_reads w')%nat →
  backfilled w1 w1' s o → backfilled w w' s o.
Proof.
  intros Hp Hlo Hhi (Hid & Hupd & Htitle & Hcreated).
  repeat split; try done.
  destruct (sess_created_at s); [done|].
  destruct (sess_updated_at s); [done|].
  destruct Hcreated as (n & Hn & Hc). exists n. rewrite <- Hp. split; [lia|done].
Qed.

(** The loop only reads the clock: it ends, leaves everything else of
    the world as it was, and turns each record into its backfilled
    form. *)
Lemma backfill_spec docs w :
  ∃ out (n : nat),
    backfill docs w = (Ok out, set_clock_reads n w) ∧
    (clock_reads w ≤ n)%nat ∧
    Forall2 (backfilled w (set_clock_reads n w)) docs out.
Proof.
  revert w. induction docs as [|s rest IH]; intros w.
  - exists [], (clock_reads w). split; [by destruct w|]. split; [lia|constructor].
  - cbn [backfill]. unfold parse_from_mongo.
    destruct (sess_created_at s) as [c|] eqn:Hc.
    + destruct (IH w) as (out & n & Hrun & Hn & Hall).
      eexists (_ :: out), n. unfold bind at 1. unfold ret at 1.
      unfold bind at 1. rewrite Hrun. split; [reflexivity|]. split; [done|].
      constructor; [|done]. repeat split; cbn; try done. by rewrite Hc.
    + destruct (IH (set_clock_reads (S (clock_reads w)) w))
        as (out & n & Hrun & Hn & Hall). cbn in Hn.
      eexists (_ :: out), n. unfold bind at 1. unfold bind at 1. unfold now at 1.
      unfold ret at 1. unfold bind at 1. rewrite Hrun.
      split; [reflexivity|]. split; [lia|].
      constructor.
      * repeat split; cbn; try done. rewrite Hc.
        destruct (sess_updated_at s); [done|].
        exists (clock_reads w). split; [lia|done].
      * eapply Forall2_impl; [exact Hall|]. intros s' o'.
        apply backfilled_weaken; cbn; try done; lia.
Qed.

Lemma get_sessions_spec w :
  ∃ out (n : nat),
    get_sessions w = (Ok out, set_clock_reads n w) ∧
    (clock_reads w ≤ n)%nat ∧
    Forall2 (backfilled w (set_clock_reads n w)) (find_sessions (db w)) out.
Proof. unfold get_sessions, bind, get_db. apply backfill_spec. Qed.

Lemma find_sessions_sorted (d : Db) : StronglySorted newer_first (find_sessions d).
Proof.
  unfold find_sessions. apply to_list_StronglySorted.
  apply (sort_descending sess_updated_at).
Qed.

Lemma find_sessions_length (d : Db) :
  length (find_sessions d) = Nat.min 100 (length (sessions d)).
Proof.
  unfold find_sessions. rewrite to_list_length.
  by rewrite (sort_Permutation sess_updated_at).
Qed.

Lemma find_sessions_subseteq (d : Db) : find_sessions d ⊆ sessions d.
Proof.
  unfold find_sessions, to_list. intros s Hs.
  apply subseteq_take in Hs. by rewrite (sort_Permutation sess_updated_at) in Hs.
Qed.

Lemma newer_first_transfer docs out :
  Forall2 (λ s o, sess_updated_at o = sess_updated_at s) docs out →
  StronglySorted newer_first docs → StronglySorted newer_first out.
Proof.
  induction 1 as [|s o docs out Hso Hrest IH]; [constructor|].
  rewrite !StronglySorted_cons. intros [Hhd Htl]. split; [|by apply IH].
  clear IH Htl. induction Hrest as [|s' o' docs out Hso' Hrest IH]; [constructor|].
  apply Forall_cons in Hhd as [Hs' Hhd]. constructor; [|by apply IH].
  unfold newer_first in *. by rewrite Hso, Hso'.
Qed.
End sessions_listing.


(** ** Listing and deleting the messages of a session *)

Section messages_listing.
Implicit Types (w : World) (sid : string) (d : Db).

Lemma get_messages_unfold sid w :
  get_messages sid w = (Ok (find_messages sid (db w)), w).
Proof. unfold get_messages, bind, get_db, ret, parse_from_mongo. by rewrite list_fmap_id. Qed.

Lemma find_messages_sorted sid d : StronglySorted older_first (find_messages sid d).
Proof.
  unfold find_messages. apply to_list_StronglySorted.
  apply (sort_ascending (λ m, Some (msg_timestamp m))).
Qed.

Lemma find_messages_elem_of sid d m :
  m ∈ find_messages sid d → m ∈ messages d ∧ msg_session_id m = sid.
Proof.
  unfold find_messages, to_list. intros Hm. apply subseteq_take in Hm.
  rewrite (sort_Permutation (λ m, Some (msg_timestamp m))) in Hm.
  apply list_elem_of_filter in Hm. tauto.
Qed.

Lemma find_messages_all sid d :
  (length (filter (λ m, msg_session_id m = sid) (messages d)) ≤ 1000)%nat →
  find_messages sid d ≡ₚ filter (λ m, msg_session_id m = sid) (messages d).
Proof.
  intros Hlen. unfold find_messages, to_list.
  rewrite take_ge; [apply sort_Permutation|].
  by rewrite (sort_Permutation (λ m, Some (msg_timestamp m))).
Qed.

Lemma find_messages_length sid d : (length (find_messages sid d) ≤ 1000)%nat.
Proof. unfold find_messages. rewrite to_list_length. lia. Qed.

Lemma find_messages_none sid d :
  (∀ m, m ∈ messages d → msg_session_id m ≠ sid) → find_messages sid d = [].
Proof.
  intros Hnone. unfold find_messages.
  replace (filter _ (messages d)) with (@nil Message); [done|].
  symmetry. apply head_None.
  by apply (find_one_None (λ m, msg_session_id m = sid) (messages d)).
Qed.
End messages_listing.

(** C6. For every session id and every world [get_messages] succeeds,
    leaves the world as it is and returns at most 1000 messages, all of
    them stored messages of that session, in ascending order of
    [timestamp]; when the session has no more than 1000 messages these
    are all of them. *)
Theorem get_messages_sorted_bounded (w : World) (session_id : string) :
  ∃ out : list Message,
    get_messages session_id w = (Ok out, w) ∧
    StronglySorted older_first out ∧
    (length out ≤ 1000)%nat ∧
    (∀ m, m ∈ out → m ∈ messages (db w) ∧ msg_session_id m = session_id) ∧
    ((length (filter (λ m, msg_session_id m = session_id) (messages (db w))) ≤ 1000)%nat →
     out ≡ₚ filter (λ m, msg_session_id m = session_id) (messages (db w))).
Proof.
  exists (find_messages session_id (db w)).
  split; [apply get_messages_unfold|].
  split; [apply find_messages_sorted|].
  split; [apply find_messages_length|].
  split; [apply find_messages_elem_of|apply find_messages_all].
Qed.

(** C10. For a session id that no session bears and no message refers
    to, [get_messages] succeeds with the empty list and changes
    nothing; it does not raise. *)
Theorem get_messages_unknown_session (w : World) (session_id : string) :
  lookup_session (db w) session_id = None →
  (∀ m, m ∈ messages (db w) → msg_session_id m ≠ session_id) →
  get_messages session_id w = (Ok [], w).
Proof.
  intros _ Hnone. rewrite get_messages_unfold. by rewrite find_messages_none.
Qed.

Lemma get_messages_unknown_session_witness :
  lookup_session (db sample_world) "nobody" = None ∧
  (∀ m, m ∈ messages (db sample_world) → msg_session_id m ≠ "nobody") ∧
  get_messages "nobody" sample_world = (Ok [], sample_world).
Proof.
  split; [reflexivity |].
  split; [apply Forall_forall, (bool_decide_unpack _); vm_compute; exact I |].
  apply (get_messages_unknown_session sample_world "nobody").
  - reflexivity.
  - apply Forall_forall, (bool_decide_unpack _); vm_compute; exact I.
Defined.

(** ** Deleting a session *)

Section deletion.
Context {A : Type} (P : A → Prop) `{∀ x, Decision (P x)}.
Implicit Types (l : list A) (x : A).

Lemma delete_one_no_match l : (∀ x, x ∈ l → ¬ P x) → delete_one P l = l.
Proof.
  induction l as [|y l IH]; [done|]. intros Hall. cbn.
  rewrite decide_False by (apply Hall; left).
  f_equal. apply IH. intros x Hx. apply Hall. by right.
Qed.

Lemma delete_one_elem_of l x : x ∈ delete_one P l → x ∈ l.
Proof.
  induction l as [|y l IH]; [done|]. cbn. case_decide.
  - by right.
  - intros [->|Hx]%elem_of_cons; [left|right; by apply IH].
Qed.

Lemma delete_one_keeps l x : x ∈ l → ¬ P x → x ∈ delete_one P l.
Proof.
  induction l as [|y l IH]; [done|]. cbn.
  intros [->|Hx]%elem_of_cons HP.
  - rewrite decide_False by done. left.
  - case_decide; [done|]. right. by apply IH.
Qed.

Lemma delete_many_elem_of l x : x ∈ delete_many P l ↔ x ∈ l ∧ ¬ P x.
Proof. unfold delete_many. rewrite list_elem_of_filter. tauto. Qed.

Lemma delete_many_idemp l : delete_many P (delete_many P l) = delete_many P l.
Proof.
  unfold delete_many. induction l as [|y l IH]; [done|].
  rewrite filter_cons. case_decide; [|done].
  rewrite filter_cons. rewrite decide_True by done. by rewrite IH.
Qed.
End deletion.

Section delete_session.
Implicit Types (w : World) (sid : string) (coll : list SessionDoc).

(** With unique ids, dropping the first session under an id drops
    the only one. *)
Lemma delete_one_unique sid coll :
  NoDup (sess_id <$> coll) →
  ∀ s, s ∈ delete_one (λ s, sess_id s = sid) coll → sess_id s ≠ sid.
Proof.
  induction coll as [|s0 rest IH]; [by intros _ s Hs; inversion Hs|].
  rewrite fmap_cons, NoDup_cons. intros [Hfresh Hnodup] s. cbn. case_decide as Hid.
  - intros Hs Heq. apply Hfresh. rewrite Hid, <- Heq.
    by apply list_elem_of_fmap_2.
  - intros [->|Hs]%elem_of_cons; [done|]. by apply IH.
Qed.

Lemma delete_session_unfold sid w :
  delete_session sid w =
    (Ok [("message", JStr "Session deleted")],
     set_db {| files := files (db w);
               messages := delete_many (λ m, msg_session_id m = sid) (messages (db w));
               sessions := delete_one (λ s, sess_id s = sid) (sessions (db w)) |} w).
Proof. reflexivity. Qed.
End delete_session.

(** C7. [delete_session] always answers [{"message": "Session
    deleted"}]. With session ids unique, as the data model has them,
    afterwards no session bears the id and no message refers to it, so
    that [get_messages] for it returns the empty list; sessions and
    messages of other ids are kept; deleting again answers the same and
    changes nothing; and when there was no such session the sessions
    are left as they were. *)
Theorem delete_session_cascade (w : World) (session_id : string) :
  unique_session_ids (db w) →
  ∃ w' : World,
    delete_session session_id w = (Ok [("message", JStr "Session deleted")], w') ∧
    lookup_session (db w') session_id = None ∧
    (∀ m, m ∈ messages (db w') → msg_session_id m ≠ session_id) ∧
    get_messages session_id w' = (Ok [], w') ∧
    (∀ s, sess_id s ≠ session_id → s ∈ sessions (db w') ↔ s ∈ sessions (db w)) ∧
    (∀ m, msg_session_id m ≠ session_id → m ∈ messages (db w') ↔ m ∈ messages (db w)) ∧
    delete_session session_id w' = (Ok [("message", JStr "Session deleted")], w') ∧
    (lookup_session (db w) session_id = None → sessions (db w') = sessions (db w)).
Proof.
  intros Hunique. eexists. split; [apply delete_session_unfold|].
  assert (Hgone : ∀ s, s ∈ delete_one (λ s, sess_id s = session_id) (sessions (db w)) →
                       sess_id s ≠ session_id)
    by (by apply delete_one_unique).
  assert (Hmsgs : ∀ m, m ∈ delete_many (λ m, msg_session_id m = session_id)
                               (messages (db w)) →
                       msg_session_id m ≠ session_id)
    by (intros m Hm; by apply delete_many_elem_of in Hm as [_ Hm]).
  split; [by apply find_one_None|].
  split; [exact Hmsgs|].
  split; [rewrite get_messages_unfold; by rewrite find_messages_none|].
  split.
  { intros s Hs. cbn. split; [apply delete_one_elem_of|].
    intros Hin. by apply delete_one_keeps. }
  split.
  { intros m Hm. cbn. rewrite delete_many_elem_of. tauto. }
  split.
  { rewrite delete_session_unfold. unfold set_db.
    cbn [db files messages sessions disk environ clock_reads uuid_draws platform].
    rewrite delete_many_idemp. by rewrite delete_one_no_match. }
  intros Hnone. cbn. apply delete_one_no_match.
  exact (proj1 (find_one_None _ _) Hnone).
Qed.

Lemma delete_session_cascade_witness :
  unique_session_ids (db sample_world) ∧
  ∃ w' : World,
    delete_session "s1" sample_world = (Ok [("message", JStr "Session deleted")], w') ∧
    lookup_session (db w') "s1" = None ∧
    (∀ m, m ∈ messages (db w') → msg_session_id m ≠ "s1") ∧
    get_messages "s1" w' = (Ok [], w') ∧
    (∀ s, sess_id s ≠ "s1" → s ∈ sessions (db w') ↔ s ∈ sessions (db sample_world)) ∧
    (∀ m, msg_session_id m ≠ "s1" →
          m ∈ messages (db w') ↔ m ∈ messages (db sample_world)) ∧
    delete_session "s1" w' = (Ok [("message", JStr "Session deleted")], w') ∧
    (lookup_session (db sample_world) "s1" = None →
     sessions (db w') = sessions (db sample_world)).
Proof.
  split; [apply (bool_decide_unpack _); vm_compute; exact I |].
  apply (delete_session_cascade sample_world "s1").
  apply (bool_decide_unpack _); vm_compute; exact I.
Defined.

(** ** The credential *)

Section environ.
Lemma ignores_environ_ret {A} (a : A) : ignores_environ (ret a).
Proof. done. Qed.

Lemma ignores_environ_raise {A} (e : Exn) : ignores_environ (@raise A e).
Proof. done. Qed.

Lemma ignores_environ_bind {A B} (c : M A) (k : A → M B) :
  ignores_environ c → (∀ a, ignores_environ (k a)) → ignores_environ (bind c k).
Proof.
  intros Hc Hk w env. unfold bind. rewrite Hc.
  destruct (c w) as [[a|e] w1]; cbn; [apply Hk|done].
Qed.

Lemma ignores_environ_try_except {A} (c : M A) (h : Exn → M A) :
  ignores_environ c → (∀ e, ignores_environ (h e)) → ignores_environ (try_except c h).
Proof.
  intros Hc Hh w env. unfold try_except. rewrite Hc.
  destruct (c w) as [[a|e] w1]; cbn; [done|apply Hh].
Qed.

Lemma ignores_environ_now : ignores_environ now.
Proof. done. Qed.

Lemma ignores_environ_uuid : ignores_environ uuid.
Proof. done. Qed.

Lemma ignores_environ_get_db : ignores_environ get_db.
Proof. done. Qed.

Lemma ignores_environ_get_platform : ignores_environ get_platform.
Proof. done. Qed.

Lemma ignores_environ_modify_db (f : Db → Db) : ignores_environ (modify_db f).
Proof. done. Qed.

Lemma ignores_environ_write_file path content :
  ignores_environ (write_file path content).
Proof. done. Qed.

Lemma ignores_environ_getsize path : ignores_environ (os_path_getsize path).
Proof. intros w env. unfold os_path_getsize. cbn. by destruct (disk w !! path). Qed.

Lemma ignores_environ_backfill docs : ignores_environ (backfill docs).
Proof.
  induction docs as [|s rest IH]; [done|]. cbn [backfill].
  apply ignores_environ_bind.
  - destruct (sess_created_at _); [done|].
    apply ignores_environ_bind; [done|]. by intros.
  - intros c. apply ignores_environ_bind; [exact IH|]. by intros.
Qed.
End environ.

Create HintDb environ.

#[local] Hint Resolve ignores_environ_ret ignores_environ_raise ignores_environ_now
  ignores_environ_uuid ignores_environ_get_db ignores_environ_get_platform
  ignores_environ_modify_db ignores_environ_write_file ignores_environ_getsize
  ignores_environ_backfill : environ.

Ltac ignores_environ_step :=
  first [ apply ignores_environ_bind; [|intros ?]
        | apply ignores_environ_try_except; [|intros ?]
        | solve [auto with environ] ].

Lemma startup_ignores_key (env : gmap string string) (key : string) :
  startup (<[LLM_KEY := key]> env) = startup env.
Proof. unfold startup. by rewrite !lookup_insert_ne. Qed.

(** C4. With the LLM credential unset, every call of [chat_stream]
    raises an HTTP 500 and leaves the world untouched.  The module body
    does not read the variable: started with it unset the process gets
    the configuration it would get with it set, and starts whenever the
    two database variables are there. No other handler reads the
    environment. *)
Theorem chat_without_credential (w : World) (request : ChatRequest) :
  environ w !! LLM_KEY = None →
  (∃ detail, chat_stream request w = (Raise (HTTPException 500 detail), w)) ∧
  (∀ key, startup (environ w) = startup (<[LLM_KEY := key]> (environ w))) ∧
  (∀ url name, environ w !! "MONGO_URL" = Some url → environ w !! "DB_NAME" = Some name →
               ∃ config, startup (environ w) = Ok config) ∧
  ignores_environ root ∧
  (∀ file, ignores_environ (upload_file file)) ∧
  ignores_environ get_sessions ∧
  ignores_environ create_session ∧
  (∀ session_id, ignores_environ (get_messages session_id)) ∧
  (∀ session_id, ignores_environ (delete_session session_id)).
Proof.
  intros Hkey. split.
  { eexists. unfold chat_stream, try_except, bind, os_environ_get.
    fold LLM_KEY. rewrite Hkey. reflexivity. }
  split; [intros key; by rewrite startup_ignores_key|].
  split.
  { intros url name Hurl Hname. unfold startup. rewrite Hurl, Hname. eauto. }
  split; [done|].
  split.
  { intros file. unfold upload_file, db_files_insert_one.
    repeat ignores_environ_step. }
  split; [unfold get_sessions; repeat ignores_environ_step|].
  split.
  { unfold create_session, new_ChatSession, db_sessions_insert_one.
    repeat ignores_environ_step. }
  split; [done|done].
Qed.

Lemma chat_without_credential_witness :
  environ keyless_world !! LLM_KEY = None ∧
  (∃ detail,
     chat_stream {| req_message := "hello"; req_session_id := "s1"; req_files := None |}
       keyless_world = (Raise (HTTPException 500 detail), keyless_world)) ∧
  (∀ key, startup (environ keyless_world) =
          startup (<[LLM_KEY := key]> (environ keyless_world))) ∧
  (∀ url name, environ keyless_world !! "MONGO_URL" = Some url →
               environ keyless_world !! "DB_NAME" = Some name →
               ∃ config, startup (environ keyless_world) = Ok config) ∧
  ignores_environ root ∧
  (∀ file, ignores_environ (upload_file file)) ∧
  ignores_environ get_sessions ∧
  ignores_environ create_session ∧
  (∀ session_id, ignores_environ (get_messages session_id)) ∧
  (∀ session_id, ignores_environ (delete_session session_id)).
Proof.
  split; [reflexivity |].
  apply (chat_without_credential keyless_world
           {| req_message := "hello"; req_session_id := "s1"; req_files := None |}).
  reflexivity.
Defined.

(** ** Unique session ids are kept *)

Section unique_ids.
Implicit Types (w : World) (sid : string) (coll : list SessionDoc).

Lemma set_updated_at_ids sid t coll :
  match set_updated_at sid t coll with
  | Some coll' => sess_id <$> coll' = sess_id <$> coll
  | None => sid ∉ sess_id <$> coll
  end.
Proof.
  induction coll as [|s rest IH]; cbn [set_updated_at].
  - rewrite fmap_nil. apply not_elem_of_nil.
  - case_decide as Hid; [done|].
    destruct (set_updated_at sid t rest) as [rest'|]; cbn.
    + by rewrite IH.
    + rewrite not_elem_of_cons. split; [congruence|done].
Qed.

Lemma update_one_upsert_unique sid t coll :
  NoDup (sess_id <$> coll) → NoDup (sess_id <$> update_one_upsert sid t coll).
Proof.
  intros Hnodup. unfold update_one_upsert, insert_one.
  pose proof (set_updated_at_ids sid t coll) as Hids.
  destruct (set_updated_at sid t coll) as [coll'|].
  - by rewrite Hids.
  - rewrite fmap_app. apply NoDup_app. split; [done|]. split.
    + intros x Hx [->|[]%elem_of_nil]%elem_of_cons. done.
    + apply NoDup_singleton.
Qed.

Lemma delete_one_NoDup sid coll :
  NoDup (sess_id <$> coll) →
  NoDup (sess_id <$> delete_one (λ s, sess_id s = sid) coll).
Proof.
  induction coll as [|s rest IH]; [done|].
  rewrite fmap_cons, NoDup_cons. intros [Hfresh Hnodup]. cbn. case_decide; [done|].
  rewrite fmap_cons, NoDup_cons. split; [|by apply IH].
  intros (s' & Hid & Hin)%list_elem_of_fmap. apply delete_one_elem_of in Hin.
  apply Hfresh. rewrite Hid. by apply list_elem_of_fmap_2.
Qed.

Lemma chat_stream_unique_ids w request key :
  key_configured w key →
  unique_session_ids (db w) → unique_session_ids (db (chat_stream request w).2).
Proof.
  intros Hkey Hunique. rewrite (chat_stream_ok _ _ _ Hkey).
  by apply update_one_upsert_unique.
Qed.

Lemma delete_session_unique_ids w sid :
  unique_session_ids (db w) → unique_session_ids (db (delete_session sid w).2).
Proof. intros Hunique. rewrite delete_session_unfold. by apply delete_one_NoDup. Qed.

Lemma create_session_unique_ids w :
  uuid4 (platform w) (uuid_draws w) ∉ sess_id <$> sessions (db w) →
  unique_session_ids (db w) → unique_session_ids (db (create_session w).2).
Proof.
  intros Hfresh Hunique. unfold unique_session_ids. cbn. unfold insert_one.
  rewrite fmap_app. apply NoDup_app. split; [done|]. split.
  - intros x Hx [->|[]%elem_of_nil]%elem_of_cons. done.
  - apply NoDup_singleton.
Qed.
End unique_ids.

(** ** Further facts about the handlers *)

(** With a store that does not fail, as the embedding has it, nothing
    but the credential makes [chat_stream] raise. *)
Lemma chat_stream_raises_iff (w : World) (request : ChatRequest) :
  (∃ e, (chat_stream request w).1 = Raise e) ↔ not_ (environ w !! LLM_KEY) = true.
Proof.
  destruct (environ w !! LLM_KEY) as [key|] eqn:Hkey.
  - destruct (decide (key = "")) as [->|Hne].
    + split; [done|]. intros _. eexists.
      unfold chat_stream, try_except, bind, os_environ_get. fold LLM_KEY.
      rewrite Hkey. reflexivity.
    + rewrite (chat_stream_ok w request key) by done. cbn.
      rewrite bool_decide_eq_false_2 by done. split; [by intros [? ?]|done].
  - split; [done|]. intros _. eexists.
    unfold chat_stream, try_except, bind, os_environ_get. fold LLM_KEY.
    rewrite Hkey. reflexivity.
Qed.

(** What [get_sessions] leaves out is not newer than what it returns. *)
Lemma find_sessions_most_recent (d : Db) :
  ∃ rest, find_sessions d ++ rest ≡ₚ sessions d ∧
          ∀ a b, a ∈ find_sessions d → b ∈ rest → newer_first a b.
Proof.
  exists (drop 100 (sort sess_updated_at (-1) (sessions d))).
  unfold find_sessions, to_list. split.
  - rewrite take_drop. apply sort_Permutation.
  - intros a b Ha Hb. eapply StronglySorted_app_1_elem_of; [|exact Ha|exact Hb].
    rewrite take_drop. apply (sort_descending sess_updated_at).
Qed.

(** The assistant message is appended without touching the session
    again. *)
Lemma generate_keeps_sessions chat user_msg request (w : World) :
  sessions (db (generate chat user_msg request w).2) = sessions (db w).
Proof.
  unfold generate, try_except, bind at 1, chat_send_message.
  by destruct (send_message (platform w) chat user_msg).
Qed.

(** ** The handlers on the sample world *)

Example sample_get_sessions :
  (get_sessions sample_world).1 =
    Ok [ {| sess_id := "s1"; sess_title := Some "New Chat";
            sess_created_at := Some 2; sess_updated_at := Some 9 |};
         {| sess_id := "s2"; sess_title := Some "New Chat";
            sess_created_at := Some 6; sess_updated_at := Some 6 |};
         {| sess_id := "s3"; sess_title := Some "Old";
            sess_created_at := Some 11; sess_updated_at := None |} ].
Proof. vm_compute. reflexivity. Qed.

Example sample_get_messages :
  msg_id <$> find_messages "s1" sample_db = ["m1"; "m2"].
Proof. vm_compute. reflexivity. Qed.

Example sample_chat_frames :
  (post_chat_stream {| req_message := "hello"; req_session_id := "s1";
                       req_files := Some ["gone"; "f1"] |} sample_world).1 =
    Ok [[("content", JStr "hi there"); ("done", JBool true)]].
Proof. vm_compute. reflexivity. Qed.

Example sample_chat_error_frame :
  (post_chat_stream {| req_message := "fail"; req_session_id := "s1";
                       req_files := None |} sample_world).1 =
    Ok [[("error", JStr "upstream failure")]].
Proof. vm_compute. reflexivity. Qed.

Example sample_chat_no_key :
  (chat_stream {| req_message := "hello"; req_session_id := "s1";
                  req_files := None |} keyless_world).1 =
    Raise (HTTPException 500 "500: API key not configured").
Proof. vm_compute. reflexivity. Qed.

Example sample_attachments :
  attachments sample_db ["gone"; "f1"; "gone too"] =
    [ {| fc_file_path := "/app/backend/uploads/f1.txt"; fc_mime_type := "text/plain" |} ].
Proof. vm_compute. reflexivity. Qed.

Example sample_delete_session :
  let w' := (delete_session "s1" sample_world).2 in
  (sess_id <$> sessions (db w'), msg_id <$> messages (db w')) = (["s3"; "s2"], ["m3"]).
Proof. vm_compute. reflexivity. Qed.

Example sample_startup_without_key :
  startup (environ keyless_world) =
    Ok {| mongo_url := "mongodb://localhost:27017"; db_name := "chat";
          cors_origins := "*" |}.
Proof. vm_compute. reflexivity. Qed.

(** ** Uploading a file *)

Lemma upload_file_unfold (w : World) (file : UploadFile) :
  upload_file file w =
    (Ok [("id", JStr (upload_id w));
         ("filename", JStr (up_filename file));
         ("content_type", JStr (up_content_type file));
         ("size", JInt (Z.of_nat (length (up_file file))))],
     set_db {| files := files (db w) ++ [upload_doc w file];
               messages := messages (db w);
               sessions := sessions (db w) |}
       (set_clock_reads (S (clock_reads w))
          (set_disk (<[upload_path w file := up_file file]> (disk w))
             (set_uuid_draws (S (uuid_draws w)) w)))).
Proof.
  unfold upload_file, try_except, bind at 1, uuid.
  unfold bind at 1, get_platform. unfold bind at 1, write_file.
  unfold bind at 1, os_path_getsize.
  cbn [disk set_disk set_uuid_draws platform].
  fold (upload_id w). fold (upload_path w file).
  rewrite lookup_insert_eq. reflexivity.
Qed.

Lemma upload_file_lookup_fresh (w : World) (file : UploadFile) :
  lookup_file (db w) (upload_id w) = None →
  lookup_file (db (upload_file file w).2) (upload_id w) = Some (upload_doc w file).
Proof.
  intros Hfresh. rewrite upload_file_unfold. by apply find_one_insert_one_fresh.
Qed.

(** X1. An upload answers with the drawn id, the file's name and media
    type and the number of bytes received; the bytes are on disk at the
    recorded path; and, the id being new to the file store, looking the
    id up gives the record with exactly that metadata. *)
Theorem upload_then_lookup (w : World) (file : UploadFile) :
  lookup_file (db w) (upload_id w) = None →
  ∃ w' : World,
    upload_file file w =
      (Ok [("id", JStr (upload_id w));
           ("filename", JStr (up_filename file));
           ("content_type", JStr (up_content_type file));
           ("size", JInt (Z.of_nat (length (up_file file))))], w') ∧
    disk w' !! upload_path w file = Some (up_file file) ∧
    lookup_file (db w') (upload_id w) = Some (upload_doc w file).
Proof.
  intros Hfresh. eexists. split; [apply upload_file_unfold|].
  split; [apply lookup_insert_eq|].
  pose proof (upload_file_lookup_fresh w file Hfresh) as Hfind.
  by rewrite upload_file_unfold in Hfind.
Qed.

Lemma upload_then_lookup_witness :
  lookup_file (db sample_world) (upload_id sample_world) = None ∧
  ∃ w' : World,
    upload_file {| up_filename := "a.txt"; up_content_type := "text/plain";
                   up_file := [Byte.x78; Byte.x79] |} sample_world =
      (Ok [("id", JStr "id-10"); ("filename", JStr "a.txt");
           ("content_type", JStr "text/plain"); ("size", JInt 2)], w') ∧
    disk w' !! "/app/backend/uploads/id-10.txt" = Some [Byte.x78; Byte.x79] ∧
    lookup_file (db w') "id-10" =
      Some {| file_id := "id-10"; file_filename := "a.txt";
              file_path := "/app/backend/uploads/id-10.txt";
              file_content_type := "text/plain"; file_size := 2;
              file_uploaded_at := 10 |}.
Proof.
  split; [reflexivity |].
  apply (upload_then_lookup sample_world
           {| up_filename := "a.txt"; up_content_type := "text/plain";
              up_file := [Byte.x78; Byte.x79] |}).
  reflexivity.
Defined.

Lemma find_one_app_Some {A} (P : A → Prop) `{∀ x, Decision (P x)} (l l' : list A) (x : A) :
  find_one P l = Some x → find_one P (l ++ l') = Some x.
Proof.
  unfold find_one. intros Hhd. rewrite filter_app.
  destruct (filter P l); [done|]. done.
Qed.

(** X2. An upload only adds: a file id that resolved before resolves to
    the same record afterwards, even if the new record has the same id;
    what was on disk at other paths is still there; messages and
    sessions are as they were. *)
Theorem upload_keeps_store (w : World) (file : UploadFile) :
  let w' := (upload_file file w).2 in
  (∀ fid doc, lookup_file (db w) fid = Some doc → lookup_file (db w') fid = Some doc) ∧
  (∀ path, path ≠ upload_path w file → disk w' !! path = disk w !! path) ∧
  messages (db w') = messages (db w) ∧
  sessions (db w') = sessions (db w).
Proof.
  rewrite upload_file_unfold. cbn.
  split; [intros fid doc; apply find_one_app_Some|].
  split; [|done]. intros path Hpath. by rewrite lookup_insert_ne.
Qed.

(** X3. A file that was just uploaded under a new id is attached to the
    LLM call of a chat request that lists this id: the user message
    carries its path on disk and the media type given at upload. *)
Theorem upload_then_attach (w : World) (file : UploadFile) (key message session_id : string) :
  let request := {| req_message := message; req_session_id := session_id;
                    req_files := Some [upload_id w] |} in
  let w1 := (upload_file file w).2 in
  key_configured w key →
  lookup_file (db w) (upload_id w) = None →
  ∃ w2 : World,
    chat_stream request w1 =
      (Ok {| body_iterator :=
               generate (chat_of key request)
                 {| um_text := message;
                    um_file_contents :=
                      Some [ {| fc_file_path := upload_path w file;
                                fc_mime_type := up_content_type file |} ] |}
                 request;
             media_type := "text/event-stream" |}, w2).
Proof.
  intros request w1 Hkey Hfresh.
  assert (Hkey1 : key_configured w1 key).
  { subst w1. by rewrite upload_file_unfold. }
  eexists. rewrite (chat_stream_ok w1 request key Hkey1). f_equal. f_equal. f_equal.
  pose proof (upload_file_lookup_fresh w file Hfresh) as Hfind.
  subst w1.
  unfold user_msg_of, attachments. subst request. cbn [req_files req_message default].
  unfold id. cbn [omap list_omap]. by rewrite Hfind.
Qed.

Lemma upload_then_attach_witness :
  key_configured sample_world "secret" ∧
  lookup_file (db sample_world) (upload_id sample_world) = None ∧
  let file := {| up_filename := "a.txt"; up_content_type := "text/plain";
                 up_file := [Byte.x78; Byte.x79] |} in
  let request := {| req_message := "read this"; req_session_id := "s1";
                    req_files := Some ["id-10"] |} in
  ∃ w2 : World,
    chat_stream request (upload_file file sample_world).2 =
      (Ok {| body_iterator :=
               generate (chat_of "secret" request)
                 {| um_text := "read this";
                    um_file_contents :=
                      Some [ {| fc_file_path := "/app/backend/uploads/id-10.txt";
                                fc_mime_type := "text/plain" |} ] |}
                 request;
             media_type := "text/event-stream" |}, w2).
Proof.
  split; [split; [reflexivity | discriminate] |].
  split; [reflexivity |].
  apply (upload_then_attach sample_world
           {| up_filename := "a.txt"; up_content_type := "text/plain";
              up_file := [Byte.x78; Byte.x79] |} "secret" "read this" "s1").
  - split; [reflexivity | discriminate].
  - reflexivity.
Defined.

(** ** Creating a session *)

Lemma create_session_unfold (w : World) :
  create_session w =
    (Ok {| cs_id := uuid4 (platform w) (uuid_draws w);
           cs_title := "New Chat";
           cs_created_at := clock (platform w) (clock_reads w);
           cs_updated_at := clock (platform w) (S (clock_reads w)) |},
     set_db {| files := files (db w);
               messages := messages (db w);
               sessions :=
                 sessions (db w) ++
                   [{| sess_id := uuid4 (platform w) (uuid_draws w);
                       sess_title := Some "New Chat";
                       sess_created_at := Some (clock (platform w) (clock_reads w));
                       sess_updated_at := Some (clock (platform w) (S (clock_reads w))) |}] |}
       (set_clock_reads (S (S (clock_reads w)))
          (set_uuid_draws (S (uuid_draws w)) w))).
Proof. reflexivity. Qed.

(** X4. [create_session] returns a session titled 'New Chat' under the
    drawn id, whose [updated_at] is not before its [created_at] when the
    clock does not run backwards, and appends that very session to the
    store, where its id finds it if the id is new; files and messages
    are as they were. *)
Theorem create_session_stored (w : World) :
  clock_monotone (platform w) →
  ∃ (session : ChatSession) (w' : World),
    create_session w = (Ok session, w') ∧
    cs_id session = uuid4 (platform w) (uuid_draws w) ∧
    cs_title session = "New Chat" ∧
    (cs_created_at session <= cs_updated_at session)%Z ∧
    sessions (db w') = sessions (db w) ++ [model_dump session] ∧
    (lookup_session (db w) (cs_id session) = None →
     lookup_session (db w') (cs_id session) = Some (model_dump session)) ∧
    files (db w') = files (db w) ∧
    messages (db w') = messages (db w).
Proof.
  intros Hclock. eexists _, _. split; [apply create_session_unfold|].
  split; [done|]. split; [done|].
  split; [cbn; apply Hclock; lia|].
  split; [done|]. split; [|done].
  intros Hfresh. by apply find_one_insert_one_fresh.
Qed.

Lemma create_session_stored_witness :
  clock_monotone (platform sample_world) ∧
  ∃ (session : ChatSession) (w' : World),
    create_session sample_world = (Ok session, w') ∧
    cs_id session = uuid4 (platform sample_world) (uuid_draws sample_world) ∧
    cs_title session = "New Chat" ∧
    (cs_created_at session <= cs_updated_at session)%Z ∧
    sessions (db w') = sessions (db sample_world) ++ [model_dump session] ∧
    (lookup_session (db sample_world) (cs_id session) = None →
     lookup_session (db w') (cs_id session) = Some (model_dump session)) ∧
    files (db w') = files (db sample_world) ∧
    messages (db w') = messages (db sample_world).
Proof.
  split; [intros i j Hij; simpl; lia |].
  apply (create_session_stored sample_world).
  intros i j Hij; simpl; lia.
Defined.

(** ** More on the chat endpoint *)

(** X5. With the credential unset or set to the empty string,
    [chat_stream] raises an HTTP 500 before it looks up a file or writes
    anything: the world is as it was. *)
Theorem chat_stream_empty_credential (w : World) (request : ChatRequest) :
  environ w !! LLM_KEY = None ∨ environ w !! LLM_KEY = Some "" →
  ∃ detail, chat_stream request w = (Raise (HTTPException 500 detail), w).
Proof.
  intros Hkey. eexists. unfold chat_stream, try_except, bind, os_environ_get.
  fold LLM_KEY. destruct Hkey as [-> | ->]; reflexivity.
Qed.

Lemma chat_stream_empty_credential_witness :
  (environ empty_key_world !! LLM_KEY = None ∨
   environ empty_key_world !! LLM_KEY = Some "") ∧
  ∃ detail,
    chat_stream {| req_message := "hello"; req_session_id := "s1";
                   req_files := Some ["f1"] |} empty_key_world
    = (Raise (HTTPException 500 detail), empty_key_world).
Proof.
  split; [right; reflexivity |].
  apply (chat_stream_empty_credential empty_key_world
           {| req_message := "hello"; req_session_id := "s1";
              req_files := Some ["f1"] |}).
  right; reflexivity.
Defined.

(** X6. The user message handed to the LLM carries the request's text
    and never an empty attachment list: [file_contents] is [None]
    exactly when no listed id resolves (in particular for a request
    without files), and the resolved attachments otherwise. *)
Theorem chat_attachments_none_or_nonempty (w : World) (request : ChatRequest)
    (key : string) :
  key_configured w key →
  ∃ (user_msg : UserMessage) (w' : World),
    chat_stream request w =
      (Ok {| body_iterator := generate (chat_of key request) user_msg request;
             media_type := "text/event-stream" |}, w') ∧
    um_text user_msg = req_message request ∧
    um_file_contents user_msg ≠ Some [] ∧
    (um_file_contents user_msg = None ↔
     ∀ fid, fid ∈ default [] (req_files request) → lookup_file (db w) fid = None) ∧
    (∀ fcs, um_file_contents user_msg = Some fcs →
            fcs = attachments (db w) (default [] (req_files request))).
Proof.
  intros Hkey. eexists _, _. split; [by apply chat_stream_ok|].
  split; [done|]. unfold user_msg_of. cbn [um_file_contents].
  set (ids := default [] (req_files request)).
  assert (Hnil : attachments (db w) ids = [] ↔
                 ∀ fid, fid ∈ ids → lookup_file (db w) fid = None).
  { unfold attachments. induction ids as [|fid rest IH]; [by split; [intros _ ? ?%elem_of_nil|]|].
    cbn [omap list_omap]. destruct (lookup_file (db w) fid) as [doc|] eqn:Hdoc; cbn.
    - split; [done|]. intros Hall. specialize (Hall fid (list_elem_of_here _ _)). congruence.
    - rewrite IH. split.
      + intros Hall fid' [->|Hin]%elem_of_cons; [done|by apply Hall].
      + intros Hall fid' Hin. apply Hall. by right. }
  destruct (attachments (db w) ids) as [|fc fcs] eqn:Hatt.
  - split; [done|]. split; [|done]. split; [intros _; by apply Hnil|done].
  - split; [done|]. split; [|by intros ? [= <-]].
    split; [done|]. intros Hall. by apply Hnil in Hall.
Qed.

Lemma chat_attachments_none_or_nonempty_witness :
  key_configured sample_world "secret" ∧
  let request := {| req_message := "hello"; req_session_id := "s1";
                    req_files := Some ["gone"] |} in
  ∃ (user_msg : UserMessage) (w' : World),
    chat_stream request sample_world =
      (Ok {| body_iterator := generate (chat_of "secret" request) user_msg request;
             media_type := "text/event-stream" |}, w') ∧
    um_text user_msg = req_message request ∧
    um_file_contents user_msg ≠ Some [] ∧
    (um_file_contents user_msg = None ↔
     ∀ fid, fid ∈ default [] (req_files request) →
            lookup_file (db sample_world) fid = None) ∧
    (∀ fcs, um_file_contents user_msg = Some fcs →
            fcs = attachments (db sample_world) (default [] (req_files request))).
Proof.
  split; [split; [reflexivity | discriminate] |].
  apply (chat_attachments_none_or_nonempty sample_world
           {| req_message := "hello"; req_session_id := "s1";
              req_files := Some ["gone"] |} "secret").
  split; [reflexivity | discriminate].
Defined.

(** X7. The generator of a chat response never raises and always yields
    exactly one frame: the content frame, after appending the assistant
    message, when the LLM call returns; the error frame with the text of
    the exception, and nothing written, when it raises. *)
Theorem generate_single_frame (chat : LlmChat) (user_msg : UserMessage)
    (request : ChatRequest) (w : World) :
  ∃ (frame : Frame) (w' : World),
    generate chat user_msg request w = (Ok [frame], w') ∧
    match send_message (platform w) chat user_msg with
    | Ok completion =>
        frame = content_frame completion ∧
        w' = after_assistant_message request completion w
    | Raise e => frame = error_frame (str e) ∧ w' = w
    end.
Proof.
  destruct (send_message (platform w) chat user_msg) as [completion|e] eqn:Hllm.
  - eexists _, _. split; [by apply generate_ok|done].
  - eexists _, _. split; [by apply generate_raise|done].
Qed.

(** The three ways a chat request can end. *)
Lemma post_chat_stream_cases (w : World) (request : ChatRequest) :
  (∃ detail, post_chat_stream request w = (Raise (HTTPException 500 detail), w)) ∨
  (∃ key completion,
     key_configured w key ∧ gateway_outcome w key request = Ok completion ∧
     post_chat_stream request w =
       (Ok [content_frame completion],
        after_assistant_message request completion (after_user_message request w))) ∨
  (∃ key e,
     key_configured w key ∧ gateway_outcome w key request = Raise e ∧
     post_chat_stream request w = (Ok [error_frame (str e)], after_user_message request w)).
Proof.
  destruct (environ w !! LLM_KEY) as [key|] eqn:Hkey;
    [destruct (decide (key = "")) as [->|Hne]|].
  - left. eexists. unfold post_chat_stream, bind, chat_stream, try_except, bind,
      os_environ_get. fold LLM_KEY. rewrite Hkey. reflexivity.
  - assert (Hconf : key_configured w key) by done.
    right. rewrite (post_chat_stream_unfold _ _ _ Hconf).
    destruct (gateway_outcome w key request) as [completion|e] eqn:Hllm.
    + left. exists key, completion. split; [done|]. split; [done|].
      by apply generate_ok.
    + right. exists key, e. split; [done|]. split; [done|].
      by apply generate_raise.
  - left. eexists. unfold post_chat_stream, bind, chat_stream, try_except, bind,
      os_environ_get. fold LLM_KEY. rewrite Hkey. reflexivity.
Qed.

Lemma post_chat_stream_added (w : World) (request : ChatRequest) :
  ∃ added : list Message,
    messages (db (post_chat_stream request w).2) = messages (db w) ++ added ∧
    (length added ≤ 2)%nat ∧
    Forall (λ m, msg_session_id m = req_session_id request) added ∧
    files (db (post_chat_stream request w).2) = files (db w).
Proof.
  destruct (post_chat_stream_cases w request)
    as [[detail ->]|[(key & c & _ & _ & ->)|(key & e & _ & _ & ->)]]; cbn.
  - exists []. rewrite app_nil_r. split; [done|]. split; [cbn; lia|].
    split; [constructor|done].
  - eexists [_; _]. rewrite <- app_assoc. split; [done|]. split; [cbn; lia|].
    split; [by repeat constructor|done].
  - eexists [_]. split; [done|]. split; [cbn; lia|].
    split; [by repeat constructor|done].
Qed.

(** X8. However a chat request ends, the stored messages are kept as
    they are and in their order; at most two messages are added after
    them, all for the session of the request; and the files collection
    is not written. *)
Theorem chat_appends_only (w : World) (request : ChatRequest) :
  let w' := (post_chat_stream request w).2 in
  ∃ added : list Message,
    messages (db w') = messages (db w) ++ added ∧
    (length added ≤ 2)%nat ∧
    Forall (λ m, msg_session_id m = req_session_id request) added ∧
    files (db w') = files (db w).
Proof. apply post_chat_stream_added. Qed.

Lemma filter_other_session (sid other : string) (added : list Message) :
  other ≠ sid →
  Forall (λ m, msg_session_id m = sid) added →
  filter (λ m, msg_session_id m = other) added = [].
Proof.
  intros Hne Hall. induction Hall as [|m rest Hm _ IH]; [done|].
  rewrite filter_cons, decide_False by congruence. done.
Qed.

Lemma update_one_upsert_other (sid other : string) (t : datetime) (coll : list SessionDoc) :
  other ≠ sid →
  find_one (λ s, sess_id s = other) (update_one_upsert sid t coll) =
    find_one (λ s, sess_id s = other) coll.
Proof.
  intros Hne. unfold update_one_upsert, insert_one.
  assert (Hset : ∀ coll', set_updated_at sid t coll = Some coll' →
            find_one (λ s, sess_id s = other) coll' =
              find_one (λ s, sess_id s = other) coll).
  { induction coll as [|s rest IH]; [done|]. intros coll'. cbn [set_updated_at].
    case_decide as Hid.
    - intros [= <-]. rewrite !find_one_cons. cbn [sess_id].
      rewrite !decide_False by congruence. done.
    - destruct (set_updated_at sid t rest) as [rest'|]; [|done].
      intros [= <-]. rewrite !find_one_cons. case_decide; [done|]. by apply IH. }
  destruct (set_updated_at sid t coll) as [coll'|]; [by apply Hset|].
  unfold find_one. rewrite filter_app, filter_cons, decide_False by (cbn; congruence).
  by rewrite filter_nil, app_nil_r.
Qed.

(** X9. A chat request in one session leaves every other session as it
    was, however the request ends: the messages listed for another
    session id and the session record found under it do not change. *)
Theorem chat_leaves_other_sessions (w : World) (request : ChatRequest) (other : string) :
  other ≠ req_session_id request →
  let w' := (post_chat_stream request w).2 in
  find_messages other (db w') = find_messages other (db w) ∧
  lookup_session (db w') other = lookup_session (db w) other.
Proof.
  intros Hne w'. subst w'. split.
  - destruct (post_chat_stream_added w request) as (added & Hmsgs & _ & Hall & _).
    unfold find_messages. rewrite Hmsgs, filter_app.
    rewrite (filter_other_session (req_session_id request) other added) by done.
    by rewrite app_nil_r.
  - unfold lookup_session.
    destruct (post_chat_stream_cases w request)
      as [[detail ->]|[(key & c & _ & _ & ->)|(key & e & _ & _ & ->)]]; cbn;
      [done|by apply update_one_upsert_other..].
Qed.

Lemma chat_leaves_other_sessions_witness :
  "s2" ≠ "s1" ∧
  let w' := (post_chat_stream
               {| req_message := "hello"; req_session_id := "s1"; req_files := None |}
               sample_world).2 in
  find_messages "s2" (db w') = find_messages "s2" (db sample_world) ∧
  lookup_session (db w') "s2" = lookup_session (db sample_world) "s2".
Proof.
  split; [discriminate |].
  apply (chat_leaves_other_sessions sample_world
           {| req_message := "hello"; req_session_id := "s1"; req_files := None |} "s2").
  discriminate.
Defined.

(** X10. The assistant's reply is persisted without touching the session
    again: after a chat whose LLM call returned, the session found under
    the request's id still has the [updated_at] set when the user
    message was stored, which, with a clock that does not run
    backwards, lies between the timestamps of the two new messages. *)
Theorem reply_leaves_session_time (w : World) (request : ChatRequest)
    (key completion : string) :
  key_configured w key →
  clock_monotone (platform w) →
  gateway_outcome w key request = Ok completion →
  ∃ (u a : Message) (s : SessionDoc) (w' : World),
    post_chat_stream request w = (Ok [content_frame completion], w') ∧
    messages (db w') = messages (db w) ++ [u; a] ∧
    lookup_session (db w') (req_session_id request) = Some s ∧
    sess_updated_at s = Some (touch_time w) ∧
    (msg_timestamp u <= touch_time w <= msg_timestamp a)%Z.
Proof.
  intros Hkey Hclock Hllm.
  pose proof (update_one_upsert_spec (req_session_id request) (touch_time w)
                (sessions (db w))) as Hup.
  assert (∃ s, find_one (λ s, sess_id s = req_session_id request)
                 (update_one_upsert (req_session_id request) (touch_time w)
                    (sessions (db w))) = Some s ∧
               sess_updated_at s = Some (touch_time w)) as (s & Hs & Hupd).
  { destruct (find_one _ (sessions (db w))); destruct Hup as [_ ->]; eauto. }
  exists (user_message_of w request),
         (assistant_message_of (after_user_message request w) request completion),
         s,
         (after_assistant_message request completion (after_user_message request w)).
  rewrite (post_chat_stream_unfold _ _ _ Hkey).
  rewrite (generate_ok _ _ _ completion) by exact Hllm.
  split; [done|]. split; [cbn; by rewrite <- app_assoc|].
  split; [exact Hs|]. split; [exact Hupd|].
  unfold touch_time. cbn. split; apply Hclock; lia.
Qed.

Lemma reply_leaves_session_time_witness :
  key_configured sample_world "secret" ∧
  clock_monotone (platform sample_world) ∧
  gateway_outcome sample_world "secret"
    {| req_message := "hello"; req_session_id := "s1"; req_files := None |}
    = Ok "hi there" ∧
  ∃ (u a : Message) (s : SessionDoc) (w' : World),
    post_chat_stream
      {| req_message := "hello"; req_session_id := "s1"; req_files := None |}
      sample_world = (Ok [content_frame "hi there"], w') ∧
    messages (db w') = messages (db sample_world) ++ [u; a] ∧
    lookup_session (db w') "s1" = Some s ∧
    sess_updated_at s = Some (touch_time sample_world) ∧
    (msg_timestamp u <= touch_time sample_world <= msg_timestamp a)%Z.
Proof.
  split; [split; [reflexivity | discriminate] |].
  split; [intros i j Hij; simpl; lia |].
  split; [reflexivity |].
  apply (reply_leaves_session_time sample_world
           {| req_message := "hello"; req_session_id := "s1"; req_files := None |}
           "secret" "hi there").
  - split; [reflexivity | discriminate].
  - intros i j Hij; simpl; lia.
  - reflexivity.
Defined.

(** X11. What a successful chat stored is what [get_messages] then
    lists: for a session that stays within the limit of 1000, the
    listing after the chat holds the session's earlier messages together
    with the new user message and the assistant's reply. *)
Theorem chat_then_get_messages (w : World) (request : ChatRequest)
    (key completion : string) :
  key_configured w key →
  gateway_outcome w key request = Ok completion →
  (length (filter (λ m, msg_session_id m = req_session_id request) (messages (db w))) + 2
   ≤ 1000)%nat →
  ∃ (u a : Message) (w' : World) (out : list Message),
    post_chat_stream request w = (Ok [content_frame completion], w') ∧
    is_user_message request u ∧
    is_assistant_message request completion a ∧
    get_messages (req_session_id request) w' = (Ok out, w') ∧
    out ≡ₚ filter (λ m, msg_session_id m = req_session_id request) (messages (db w))
             ++ [u; a].
Proof.
  intros Hkey Hllm Hlen.
  exists (user_message_of w request),
         (assistant_message_of (after_user_message request w) request completion),
         (after_assistant_message request completion (after_user_message request w)).
  eexists. rewrite (post_chat_stream_unfold _ _ _ Hkey).
  rewrite (generate_ok _ _ _ completion) by exact Hllm.
  split; [done|]. split; [done|]. split; [done|].
  split; [apply get_messages_unfold|].
  assert (Hfilter :
    filter (λ m, msg_session_id m = req_session_id request)
      (messages (db (after_assistant_message request completion
                       (after_user_message request w)))) =
    filter (λ m, msg_session_id m = req_session_id request) (messages (db w)) ++
      [user_message_of w request;
       assistant_message_of (after_user_message request w) request completion]).
  { cbn. rewrite !filter_app, !filter_cons, !decide_True by done.
    by rewrite filter_nil, <- app_assoc. }
  rewrite find_messages_all; rewrite Hfilter; [done|].
  rewrite length_app. cbn. lia.
Qed.

Lemma chat_then_get_messages_witness :
  key_configured sample_world "secret" ∧
  gateway_outcome sample_world "secret"
    {| req_message := "hello"; req_session_id := "s1"; req_files := None |}
    = Ok "hi there" ∧
  (length (filter (λ m, msg_session_id m = "s1") (messages (db sample_world))) + 2
   ≤ 1000)%nat ∧
  ∃ (u a : Message) (w' : World) (out : list Message),
    post_chat_stream
      {| req_message := "hello"; req_session_id := "s1"; req_files := None |}
      sample_world = (Ok [content_frame "hi there"], w') ∧
    is_user_message
      {| req_message := "hello"; req_session_id := "s1"; req_files := None |} u ∧
    is_assistant_message
      {| req_message := "hello"; req_session_id := "s1"; req_files := None |}
      "hi there" a ∧
    get_messages "s1" w' = (Ok out, w') ∧
    out ≡ₚ filter (λ m, msg_session_id m = "s1") (messages (db sample_world)) ++ [u; a].
Proof.
  split; [split; [reflexivity | discriminate] |].
  split; [reflexivity |].
  split; [vm_compute; lia |].
  apply (chat_then_get_messages sample_world
           {| req_message := "hello"; req_session_id := "s1"; req_files := None |}
           "secret" "hi there").
  - split; [reflexivity | discriminate].
  - reflexivity.
  - vm_compute; lia.
Defined.

(** ** The newest session comes first *)

Section newest_first.
Implicit Types (w : World) (sid : string) (coll : list SessionDoc) (s : SessionDoc).

Lemma updated_before_not_newer (t : datetime) s s' :
  sess_updated_at s' = Some t → updated_before t s → ¬ newer_first s s'.
Proof.
  unfold updated_before, newer_first. intros ->.
  destruct (sess_updated_at s); simpl; [lia|tauto].
Qed.

(** A record that every other record is strictly older than heads the
    listing. *)
Lemma find_sessions_head (d : Db) s :
  s ∈ sessions d →
  (∀ s', s' ∈ sessions d → s' = s ∨ ¬ newer_first s' s) →
  ∃ rest, find_sessions d = s :: rest.
Proof.
  intros Hin Holder. unfold find_sessions, to_list.
  pose proof (sort_descending sess_updated_at (sessions d)) as Hsorted.
  pose proof (sort_Permutation sess_updated_at (-1) (sessions d)) as Hperm.
  destruct (sort sess_updated_at (-1) (sessions d)) as [|h tl].
  { rewrite <- Hperm in Hin. by apply elem_of_nil in Hin. }
  assert (h = s) as ->.
  { assert (Hh : h ∈ sessions d) by (rewrite <- Hperm; left).
    destruct (Holder h Hh) as [->|Hnot]; [done|]. exfalso. apply Hnot.
    rewrite <- Hperm in Hin. apply elem_of_cons in Hin as [->|Hin].
    - unfold newer_first. destruct (sess_updated_at h); simpl; [lia|done].
    - apply StronglySorted_cons in Hsorted as [Hall _].
      rewrite Forall_forall in Hall. by apply Hall. }
  by eexists.
Qed.

Lemma set_updated_at_elem_of sid t coll coll' s' :
  set_updated_at sid t coll = Some coll' → s' ∈ coll' →
  find_one (λ s, sess_id s = sid) coll' = Some s' ∨ s' ∈ coll.
Proof.
  revert coll'. induction coll as [|s rest IH]; [done|]. intros coll'.
  cbn [set_updated_at]. case_decide as Hid.
  - intros [= <-] [->|Hin]%elem_of_cons.
    + left. rewrite find_one_cons. by rewrite decide_True.
    + right. by right.
  - destruct (set_updated_at sid t rest) as [rest'|]; [|done].
    intros [= <-] [->|Hin]%elem_of_cons; [right; left|].
    rewrite find_one_cons, decide_False by done.
    destruct (IH rest' eq_refl Hin) as [?|?]; [by left|right; by right].
Qed.

Lemma update_one_upsert_elem_of sid t coll s' :
  s' ∈ update_one_upsert sid t coll →
  find_one (λ s, sess_id s = sid) (update_one_upsert sid t coll) = Some s' ∨ s' ∈ coll.
Proof.
  unfold update_one_upsert, insert_one.
  destruct (set_updated_at sid t coll) as [coll'|] eqn:Hset.
  - by apply (set_updated_at_elem_of sid t coll).
  - intros [Hin|Hin%list_elem_of_singleton]%elem_of_app; [by right|]. subst s'. left.
    pose proof (set_updated_at_ids sid t coll) as Hids. rewrite Hset in Hids.
    apply find_one_insert_one_fresh; [|done].
    apply find_one_None. intros s Hs Hid. apply Hids. rewrite <- Hid.
    by apply list_elem_of_fmap_2.
Qed.

Lemma get_sessions_head w s rest :
  find_sessions (db w) = s :: rest →
  ∃ first others w',
    get_sessions w = (Ok (first :: others), w') ∧
    sess_id first = sess_id s ∧ sess_updated_at first = sess_updated_at s.
Proof.
  intros Hfind. destruct (get_sessions_spec w) as (out & n & Hrun & _ & Hall).
  rewrite Hfind in Hall. apply Forall2_cons_inv_l in Hall
    as (first & others & (Hid & Hupd & _) & _ & ->).
  by exists first, others, (set_clock_reads n w).
Qed.
End newest_first.

(** X12. After [chat_stream] has touched the session of a request,
    [get_sessions] lists that session first with the new [updated_at],
    provided every session stored before was last updated strictly
    before the touch. *)
Theorem touched_session_listed_first (w : World) (request : ChatRequest) (key : string) :
  key_configured w key →
  Forall (updated_before (touch_time w)) (sessions (db w)) →
  ∃ (first : SessionDoc) (others : list SessionDoc) (w' : World),
    get_sessions (chat_stream request w).2 = (Ok (first :: others), w') ∧
    sess_id first = req_session_id request ∧
    sess_updated_at first = Some (touch_time w).
Proof.
  intros Hkey Hold. rewrite (chat_stream_ok _ _ _ Hkey). cbn [snd].
  set (sid := req_session_id request). set (t := touch_time w).
  pose proof (update_one_upsert_spec sid t (sessions (db w))) as Hup.
  assert (∃ s, find_one (λ s, sess_id s = sid)
                 (update_one_upsert sid t (sessions (db w))) = Some s ∧
               sess_updated_at s = Some t) as (s & Hs & Hupd).
  { destruct (find_one _ (sessions (db w))); destruct Hup as [_ ->]; eauto. }
  destruct (find_one_Some _ _ _ Hs) as [Hin Hid].
  destruct (find_sessions_head (db (after_user_message request w)) s) as [rest Hhead].
  - exact Hin.
  - intros s' Hs'. apply update_one_upsert_elem_of in Hs' as [Hs'|Hs'].
    + left. fold sid t in Hs'. congruence.
    + right. apply (updated_before_not_newer t); [done|].
      rewrite Forall_forall in Hold. by apply Hold.
  - destruct (get_sessions_head _ _ _ Hhead) as (first & others & w' & Hrun & Hfid & Hfupd).
    exists first, others, w'. split; [exact Hrun|]. split; congruence.
Qed.

Lemma touched_session_listed_first_witness :
  key_configured sample_world "secret" ∧
  Forall (updated_before (touch_time sample_world)) (sessions (db sample_world)) ∧
  ∃ (first : SessionDoc) (others : list SessionDoc) (w' : World),
    get_sessions
      (chat_stream {| req_message := "hello"; req_session_id := "s2"; req_files := None |}
         sample_world).2 = (Ok (first :: others), w') ∧
    sess_id first = "s2" ∧
    sess_updated_at first = Some (touch_time sample_world).
Proof.
  split; [split; [reflexivity | discriminate] |].
  split; [repeat constructor; vm_compute; reflexivity |].
  apply (touched_session_listed_first sample_world
           {| req_message := "hello"; req_session_id := "s2"; req_files := None |}
           "secret").
  - split; [reflexivity | discriminate].
  - repeat constructor; vm_compute; reflexivity.
Defined.

(** X13. A session just created is listed first by [get_sessions],
    provided every session stored before was last updated strictly
    before the new session's [updated_at]. *)
Theorem created_session_listed_first (w : World) :
  Forall (updated_before (clock (platform w) (S (clock_reads w)))) (sessions (db w)) →
  ∃ (session : ChatSession) (w1 : World) (first : SessionDoc)
    (others : list SessionDoc) (w2 : World),
    create_session w = (Ok session, w1) ∧
    get_sessions w1 = (Ok (first :: others), w2) ∧
    sess_id first = cs_id session ∧
    sess_updated_at first = Some (cs_updated_at session).
Proof.
  intros Hold. pose proof (create_session_unfold w) as Hcreate.
  match type of Hcreate with _ = (Ok ?c, ?w1) =>
    destruct (find_sessions_head (db w1) (model_dump c)) as [rest Hhead] end.
  - cbn. apply elem_of_app. right. left.
  - cbn [db set_db sessions]. intros s' [Hs'|Hs'%list_elem_of_singleton]%elem_of_app;
      [|by left].
    right. apply (updated_before_not_newer (clock (platform w) (S (clock_reads w))));
      [done|].
    rewrite Forall_forall in Hold. by apply Hold.
  - destruct (get_sessions_head _ _ _ Hhead) as (first & others & w2 & Hrun & Hfid & Hfupd).
    eexists _, _, first, others, w2. split; [exact Hcreate|]. done.
Qed.

Lemma created_session_listed_first_witness :
  Forall (updated_before (clock (platform sample_world) (S (clock_reads sample_world))))
    (sessions (db sample_world)) ∧
  ∃ (session : ChatSession) (w1 : World) (first : SessionDoc)
    (others : list SessionDoc) (w2 : World),
    create_session sample_world = (Ok session, w1) ∧
    get_sessions w1 = (Ok (first :: others), w2) ∧
    sess_id first = cs_id session ∧
    sess_updated_at first = Some (cs_updated_at session).
Proof.
  split; [repeat constructor; vm_compute; reflexivity |].
  apply (created_session_listed_first sample_world).
  repeat constructor; vm_compute; reflexivity.
Defined.

(** ** More on deleting a session *)

Lemma delete_one_other (sid other : string) (coll : list SessionDoc) :
  other ≠ sid →
  find_one (λ s, sess_id s = other) (delete_one (λ s, sess_id s = sid) coll) =
    find_one (λ s, sess_id s = other) coll.
Proof.
  intros Hne. induction coll as [|s rest IH]; [done|]. cbn [delete_one].
  case_decide as Hid.
  - rewrite find_one_cons, decide_False by congruence. done.
  - rewrite !find_one_cons. by rewrite IH.
Qed.

Lemma delete_one_count {A} (P : A → Prop) `{∀ x, Decision (P x)} (l : list A) :
  length (filter P (delete_one P l)) = Nat.pred (length (filter P l)) ∧
  filter (λ x, ¬ P x) (delete_one P l) = filter (λ x, ¬ P x) l.
Proof.
  induction l as [|x l [IH1 IH2]]; [done|]. cbn [delete_one]. case_decide as HP.
  - rewrite (filter_cons P x l), (filter_cons (λ x, ¬ P x) x l).
    destruct (decide (P x)); [|done]. by destruct (decide (¬ P x)).
  - rewrite !(filter_cons P), !(filter_cons (λ x, ¬ P x)).
    destruct (decide (P x)); [done|]. destruct (decide (¬ P x)); [|done].
    by rewrite IH1, IH2.
Qed.

(** X14. Deleting one session leaves every other session as it was: the
    messages listed for another id and the session record found under
    it do not change, and neither the file records nor the uploaded
    content are touched. *)
Theorem delete_leaves_other_sessions (w : World) (session_id other : string) :
  other ≠ session_id →
  let w' := (delete_session session_id w).2 in
  find_messages other (db w') = find_messages other (db w) ∧
  lookup_session (db w') other = lookup_session (db w) other ∧
  files (db w') = files (db w) ∧
  disk w' = disk w.
Proof.
  intros Hne w'. subst w'. rewrite delete_session_unfold. cbn [snd].
  split; [|split; [by apply delete_one_other|done]].
  unfold find_messages. cbn [db set_db messages]. unfold delete_many.
  rewrite list_filter_filter. f_equal. f_equal.
  apply list_filter_iff. intros m. split; [tauto|]. intros Hm. split; [done|congruence].
Qed.

Lemma delete_leaves_other_sessions_witness :
  "s2" ≠ "s1" ∧
  let w' := (delete_session "s1" sample_world).2 in
  find_messages "s2" (db w') = find_messages "s2" (db sample_world) ∧
  lookup_session (db w') "s2" = lookup_session (db sample_world) "s2" ∧
  files (db w') = files (db sample_world) ∧
  disk w' = disk sample_world.
Proof.
  split; [discriminate |].
  apply (delete_leaves_other_sessions sample_world "s1" "s2").
  discriminate.
Defined.

(** X15. [delete_session] removes all messages of the session but one
    session record only: of the records stored under the id exactly one
    goes (none if there is none), so a second record under the same id
    stays; the records of other ids are kept in their order. *)
Theorem delete_session_drops_one_record (w : World) (session_id : string) :
  let w' := (delete_session session_id w).2 in
  length (filter (λ s, sess_id s = session_id) (sessions (db w'))) =
    Nat.pred (length (filter (λ s, sess_id s = session_id) (sessions (db w)))) ∧
  filter (λ s, sess_id s ≠ session_id) (sessions (db w')) =
    filter (λ s, sess_id s ≠ session_id) (sessions (db w)) ∧
  filter (λ m, msg_session_id m = session_id) (messages (db w')) = [] ∧
  filter (λ m, msg_session_id m ≠ session_id) (messages (db w')) =
    filter (λ m, msg_session_id m ≠ session_id) (messages (db w)).
Proof.
  rewrite delete_session_unfold. cbn [snd db set_db sessions messages].
  destruct (delete_one_count (λ s, sess_id s = session_id) (sessions (db w)))
    as [Hcount Hrest].
  split; [exact Hcount|]. split; [exact Hrest|]. unfold delete_many. split.
  - rewrite list_filter_filter. apply head_None.
    apply (find_one_None _ (messages (db w))). tauto.
  - rewrite list_filter_filter. apply list_filter_iff. tauto.
Qed.

(** ** What the limits leave out *)

(** X17. When a session has more than 1000 messages, the ones
    [get_messages] leaves out are none of them older than any it
    returns: the listing is the oldest 1000. *)
Theorem get_messages_oldest (w : World) (session_id : string) :
  ∃ out dropped : list Message,
    get_messages session_id w = (Ok out, w) ∧
    out ++ dropped ≡ₚ filter (λ m, msg_session_id m = session_id) (messages (db w)) ∧
    (length out = Nat.min 1000 (length (out ++ dropped))) ∧
    (∀ m m', m ∈ out → m' ∈ dropped → (msg_timestamp m <= msg_timestamp m')%Z).
Proof.
  set (mine := filter (λ m, msg_session_id m = session_id) (messages (db w))).
  set (sorted := sort (λ m, Some (msg_timestamp m)) 1 mine).
  exists (take 1000 sorted), (drop 1000 sorted).
  split; [apply get_messages_unfold|]. rewrite take_drop.
  split; [apply sort_Permutation|]. split; [apply length_take|].
  intros m m' Hm Hm'.
  apply (StronglySorted_app_1_elem_of older_first (take 1000 sorted) (drop 1000 sorted));
    [|done..].
  rewrite take_drop. apply (sort_ascending (λ m, Some (msg_timestamp m))).
Qed.

(** ** Documents as dictionaries *)

Module DictFacts.
Import Dict.

Section codec.
Context (isoformat : datetime → string) (fromisoformat : string → Result datetime).

Abbreviation prepare_field := (Dict.prepare_field isoformat).
Abbreviation parse_field := (Dict.parse_field fromisoformat).

Lemma prepare_field_lookup_ne (key key' : string) (data : Document) :
  key' ≠ key → prepare_field key data !! key' = data !! key'.
Proof.
  intros Hne. unfold Dict.prepare_field.
  destruct (data !! key) as [[]|]; try done. by rewrite lookup_insert_ne.
Qed.

Lemma prepare_field_not_datetime (key : string) (data : Document) :
  ¬ holds_datetime (prepare_field key data) key.
Proof.
  unfold holds_datetime, Dict.prepare_field.
  destruct (data !! key) as [[]|] eqn:Hkey; rewrite ?lookup_insert_eq, ?Hkey; tauto.
Qed.

Lemma prepare_field_id (key : string) (data : Document) :
  ¬ holds_datetime data key → prepare_field key data = data.
Proof.
  unfold holds_datetime, Dict.prepare_field.
  destruct (data !! key) as [[]|]; tauto.
Qed.

Lemma prepare_field_dom (key : string) (data : Document) :
  dom (prepare_field key data) = dom data.
Proof.
  unfold Dict.prepare_field. destruct (data !! key) as [[]|] eqn:Hkey; try done.
  apply dom_insert_lookup_L. by rewrite Hkey.
Qed.

Lemma parse_prepare_field (key : string) (data : Document) :
  (∀ t, fromisoformat (isoformat t) = Ok t) →
  ¬ holds_str data key →
  parse_field key (prepare_field key data) = Ok data.
Proof.
  intros Hcodec. unfold holds_str, Dict.parse_field, Dict.prepare_field.
  destruct (data !! key) as [[]|] eqn:Hkey; rewrite ?lookup_insert_eq, ?Hkey; try tauto.
  intros _. rewrite Hcodec, insert_insert_eq. by rewrite insert_id.
Qed.

Lemma parse_field_prepare_field_ne (key key' : string) (data : Document) :
  key' ≠ key →
  parse_field key' (prepare_field key data) =
    match parse_field key' data with
    | Ok item => Ok (prepare_field key item)
    | Raise e => Raise e
    end.
Proof.
  intros Hne. unfold Dict.parse_field. rewrite prepare_field_lookup_ne by done.
  destruct (data !! key') as [[s| | | |]|] eqn:Hkey'; try done.
  destruct (fromisoformat s) as [t|e]; [|done]. f_equal.
  unfold Dict.prepare_field. rewrite lookup_insert_ne by done.
  destruct (data !! key) as [[]|]; try done. by apply insert_insert_ne.
Qed.

Lemma parse_field_lookup_ne (key key' : string) (item item' : Document) :
  parse_field key item = Ok item' → key' ≠ key → item' !! key' = item !! key'.
Proof.
  unfold Dict.parse_field. intros Hrun Hne.
  destruct (item !! key) as [[s| | | |]|]; try by simplify_eq.
  destruct (fromisoformat s); simplify_eq. by rewrite lookup_insert_ne.
Qed.

Lemma parse_field_not_str (key : string) (item item' : Document) :
  parse_field key item = Ok item' → ¬ holds_str item' key.
Proof.
  unfold Dict.parse_field, holds_str. intros Hrun.
  destruct (item !! key) as [[s| | | |]|] eqn:Hkey; simplify_eq; rewrite ?Hkey; try tauto.
  destruct (fromisoformat s); simplify_eq. rewrite lookup_insert_eq. tauto.
Qed.

Lemma parse_field_raises (key : string) (item : Document) (e : Exn) :
  parse_field key item = Raise e ↔
  ∃ s, item !! key = Some (VStr s) ∧ fromisoformat s = Raise e.
Proof.
  unfold Dict.parse_field. split.
  - destruct (item !! key) as [[s| | | |]|]; try done.
    destruct (fromisoformat s) eqn:Hs; [done|]. intros [= <-]. eauto.
  - intros (s & -> & ->). done.
Qed.

Lemma prepare_field_lookup (key key' : string) (data : Document) :
  prepare_field key data !! key' =
    if decide (key' = key) then Dict.encode isoformat <$> data !! key' else data !! key'.
Proof.
  case_decide as Hkey; [subst key'|by apply prepare_field_lookup_ne].
  unfold Dict.prepare_field.
  destruct (data !! key) as [[]|] eqn:Hlook; rewrite ?lookup_insert_eq, ?Hlook; done.
Qed.

Lemma encode_encode (v : Value) :
  Dict.encode isoformat (Dict.encode isoformat v) = Dict.encode isoformat v.
Proof. by destruct v. Qed.

Lemma prepare_for_mongo_lookup (data : Document) (key : string) :
  Dict.prepare_for_mongo isoformat data !! key =
    if decide (key ∈ date_fields) then Dict.encode isoformat <$> data !! key
    else data !! key.
Proof.
  unfold Dict.prepare_for_mongo, date_fields. rewrite !prepare_field_lookup.
  destruct (decide (key ∈ ["timestamp"; "created_at"; "updated_at"])) as [Hin|Hnin].
  - repeat (apply elem_of_cons in Hin as [->|Hin]); [done..|].
    by apply elem_of_nil in Hin.
  - rewrite !not_elem_of_cons in Hnin. destruct Hnin as (? & ? & ? & _).
    by rewrite !decide_False by done.
Qed.

(** X18. [prepare_for_mongo] rewrites a datetime under [timestamp],
    [created_at] or [updated_at] as its ISO text and changes nothing
    else: other values of these fields and all other fields stay, no
    field is added or removed, none of the three fields holds a
    datetime afterwards, and preparing twice is preparing once. *)
Theorem prepare_for_mongo_effect (data : Document) :
  let out := Dict.prepare_for_mongo isoformat data in
  (∀ key, out !! key =
          if decide (key ∈ date_fields) then Dict.encode isoformat <$> data !! key
          else data !! key) ∧
  dom out = dom data ∧
  Forall (λ key, ¬ holds_datetime out key) date_fields ∧
  Dict.prepare_for_mongo isoformat out = out.
Proof.
  split; [apply prepare_for_mongo_lookup|]. split; [|split].
  - unfold Dict.prepare_for_mongo. by rewrite !prepare_field_dom.
  - apply Forall_forall. intros key Hkey. unfold holds_datetime.
    rewrite prepare_for_mongo_lookup, decide_True by done.
    destruct (data !! key) as [[]|]; cbn; tauto.
  - apply map_eq. intros key. rewrite !prepare_for_mongo_lookup.
    case_decide; [|done]. rewrite <- option_fmap_compose.
    destruct (data !! key) as [v|]; [|done]. cbn. by rewrite encode_encode.
Qed.

Lemma parse_prepare (data : Document) :
  (∀ t, fromisoformat (isoformat t) = Ok t) →
  Forall (λ key, ¬ holds_str data key) date_fields →
  Dict.parse_from_mongo fromisoformat (Dict.prepare_for_mongo isoformat data) = Ok data.
Proof.
  intros Hcodec Hstr. unfold date_fields in Hstr.
  apply Forall_cons in Hstr as [Hts Hstr]. apply Forall_cons in Hstr as [Hcr Hstr].
  apply Forall_cons in Hstr as [Hup _].
  unfold Dict.parse_from_mongo, Dict.prepare_for_mongo.
  rewrite !(parse_field_prepare_field_ne _ "timestamp") by done.
  rewrite parse_prepare_field by done.
  rewrite (parse_field_prepare_field_ne _ "created_at") by done.
  rewrite parse_prepare_field by done.
  by rewrite parse_prepare_field.
Qed.

(** X19. Reading back what was prepared gives the document that was
    prepared: [parse_from_mongo (prepare_for_mongo data)] returns
    [data], when [fromisoformat] reads what [isoformat] writes and none
    of the three date fields of [data] held a string to begin with. *)
Theorem prepare_parse_roundtrip (data : Document) :
  (∀ t, fromisoformat (isoformat t) = Ok t) →
  Forall (λ key, ¬ holds_str data key) date_fields →
  Dict.parse_from_mongo fromisoformat (Dict.prepare_for_mongo isoformat data) = Ok data.
Proof. apply parse_prepare. Qed.

(** X20. [parse_from_mongo] raises exactly when one of the three date
    fields holds a string that [fromisoformat] rejects; when it returns,
    none of the three fields holds a string any more and every other
    field is as it was. *)
Theorem parse_from_mongo_outcome (item : Document) :
  ((∃ e, Dict.parse_from_mongo fromisoformat item = Raise e) ↔
   (∃ key s e, key ∈ date_fields ∧ item !! key = Some (VStr s) ∧
               fromisoformat s = Raise e)) ∧
  (∀ item', Dict.parse_from_mongo fromisoformat item = Ok item' →
            Forall (λ key, ¬ holds_str item' key) date_fields ∧
            ∀ key, key ∉ date_fields → item' !! key = item !! key).
Proof.
  unfold Dict.parse_from_mongo, date_fields.
  destruct (parse_field "timestamp" item) as [item1|e1] eqn:H1.
  2:{ split; [|done]. apply parse_field_raises in H1 as (s & Hs & He).
      split; [|eauto]. intros _. exists "timestamp", s, e1. set_solver. }
  destruct (parse_field "created_at" item1) as [item2|e2] eqn:H2.
  2:{ split; [|done]. apply parse_field_raises in H2 as (s & Hs & He).
      rewrite (parse_field_lookup_ne _ _ _ _ H1) in Hs by done.
      split; [|eauto]. intros _. exists "created_at", s, e2. set_solver. }
  destruct (parse_field "updated_at" item2) as [item3|e3] eqn:H3.
  2:{ split; [|done]. apply parse_field_raises in H3 as (s & Hs & He).
      rewrite (parse_field_lookup_ne _ _ _ _ H2) in Hs by done.
      rewrite (parse_field_lookup_ne _ _ _ _ H1) in Hs by done.
      split; [|eauto]. intros _. exists "updated_at", s, e3. set_solver. }
  assert (Hts : ¬ holds_str item3 "timestamp").
  { unfold holds_str. rewrite (parse_field_lookup_ne _ _ _ _ H3) by done.
    rewrite (parse_field_lookup_ne _ _ _ _ H2) by done.
    by apply (parse_field_not_str _ _ _ H1). }
  assert (Hcr : ¬ holds_str item3 "created_at").
  { unfold holds_str. rewrite (parse_field_lookup_ne _ _ _ _ H3) by done.
    by apply (parse_field_not_str _ _ _ H2). }
  assert (Hup : ¬ holds_str item3 "updated_at")
    by apply (parse_field_not_str _ _ _ H3).
  split.
  - split; [by intros [? ?]|]. intros (key & s & e & Hkey & Hs & He). exfalso.
    assert (Hraise : ∀ item0, item0 !! key = Some (VStr s) →
                       parse_field key item0 = Raise e).
    { intros item0 H0. apply parse_field_raises. eauto. }
    repeat (apply elem_of_cons in Hkey as [->|Hkey]).
    + rewrite Hraise in H1; done.
    + rewrite Hraise in H2; [done|]. by rewrite (parse_field_lookup_ne _ _ _ _ H1).
    + rewrite Hraise in H3; [done|].
      rewrite (parse_field_lookup_ne _ _ _ _ H2) by done.
      by rewrite (parse_field_lookup_ne _ _ _ _ H1).
    + by apply elem_of_nil in Hkey.
  - intros item' [= <-]. split; [by repeat constructor|].
    intros key Hkey.
    rewrite (parse_field_lookup_ne _ _ _ _ H3) by set_solver.
    rewrite (parse_field_lookup_ne _ _ _ _ H2) by set_solver.
    by rewrite (parse_field_lookup_ne _ _ _ _ H1) by set_solver.
Qed.
End codec.

Lemma sample_codec_roundtrip (t : datetime) :
  sample_fromisoformat (sample_isoformat t) = Ok t.
Proof.
  unfold sample_fromisoformat, sample_isoformat.
  rewrite DecimalString.NilEmpty.isi. by rewrite DecimalZ.of_to.
Qed.

Lemma message_dump_no_str (m : Message) :
  Forall (λ key, ¬ holds_str (message_dump m) key) date_fields.
Proof. repeat constructor; by vm_compute. Qed.

Lemma session_dump_no_str (s : ChatSession) :
  Forall (λ key, ¬ holds_str (session_dump s) key) date_fields.
Proof. repeat constructor; by vm_compute. Qed.

(** X21. What the handlers store reads back as it was dumped: for the
    dict of any [Message] and of any [ChatSession],
    [prepare_for_mongo] puts the ISO text of each timestamp in its
    place and [parse_from_mongo] of the result returns the dict, when
    [fromisoformat] reads what [isoformat] writes. *)
Theorem model_dumps_read_back (isoformat : datetime → string)
    (fromisoformat : string → Result datetime) (m : Message) (s : ChatSession) :
  (∀ t, fromisoformat (isoformat t) = Ok t) →
  Dict.prepare_for_mongo isoformat (message_dump m) !! "timestamp" =
    Some (VStr (isoformat (msg_timestamp m))) ∧
  Dict.parse_from_mongo fromisoformat (Dict.prepare_for_mongo isoformat (message_dump m))
    = Ok (message_dump m) ∧
  Dict.prepare_for_mongo isoformat (session_dump s) !! "created_at" =
    Some (VStr (isoformat (cs_created_at s))) ∧
  Dict.prepare_for_mongo isoformat (session_dump s) !! "updated_at" =
    Some (VStr (isoformat (cs_updated_at s))) ∧
  Dict.parse_from_mongo fromisoformat (Dict.prepare_for_mongo isoformat (session_dump s))
    = Ok (session_dump s).
Proof.
  intros Hcodec.
  split; [by rewrite prepare_for_mongo_lookup|].
  split; [apply parse_prepare; [done|apply message_dump_no_str]|].
  split; [by rewrite prepare_for_mongo_lookup|].
  split; [by rewrite prepare_for_mongo_lookup|].
  apply parse_prepare; [done|apply session_dump_no_str].
Qed.

Lemma prepare_parse_roundtrip_witness :
  (∀ t, sample_fromisoformat (sample_isoformat t) = Ok t) ∧
  Forall (λ key, ¬ holds_str (message_dump sample_message) key) date_fields ∧
  Dict.parse_from_mongo sample_fromisoformat
    (Dict.prepare_for_mongo sample_isoformat (message_dump sample_message))
  = Ok (message_dump sample_message).
Proof.
  split; [exact sample_codec_roundtrip |].
  split; [repeat constructor; vm_compute; tauto |].
  apply (prepare_parse_roundtrip sample_isoformat sample_fromisoformat
           (message_dump sample_message)).
  - exact sample_codec_roundtrip.
  - repeat constructor; vm_compute; tauto.
Defined.

Lemma model_dumps_read_back_witness :
  (∀ t, sample_fromisoformat (sample_isoformat t) = Ok t) ∧
  Dict.prepare_for_mongo sample_isoformat (message_dump sample_message) !! "timestamp" =
    Some (VStr "3") ∧
  Dict.parse_from_mongo sample_fromisoformat
    (Dict.prepare_for_mongo sample_isoformat (message_dump sample_message))
    = Ok (message_dump sample_message) ∧
  Dict.prepare_for_mongo sample_isoformat (session_dump sample_session) !! "created_at" =
    Some (VStr "2") ∧
  Dict.prepare_for_mongo sample_isoformat (session_dump sample_session) !! "updated_at" =
    Some (VStr "9") ∧
  Dict.parse_from_mongo sample_fromisoformat
    (Dict.prepare_for_mongo sample_isoformat (session_dump sample_session))
    = Ok (session_dump sample_session).
Proof.
  split; [exact sample_codec_roundtrip |].
  apply (model_dumps_read_back sample_isoformat sample_fromisoformat
           sample_message sample_session).
  exact sample_codec_roundtrip.
Defined.

Example sample_parse_rejects :
  Dict.parse_from_mongo sample_fromisoformat
    {[ "id" := VStr "s1"; "updated_at" := VStr "yesterday" ]}
  = Raise (Exception "Invalid isoformat string").
Proof. vm_compute. reflexivity. Qed.
End DictFacts.

(** ** Invariants of the session store *)

Section invariants.
Implicit Types (w : World) (sid : string) (coll : list SessionDoc).

Lemma post_chat_stream_sessions w request :
  sessions (db (post_chat_stream request w).2) = sessions (db w) ∨
  sessions (db (post_chat_stream request w).2) =
    update_one_upsert (req_session_id request) (touch_time w) (sessions (db w)).
Proof.
  destruct (post_chat_stream_cases w request)
    as [[detail ->]|[(key & c & _ & _ & ->)|(key & e & _ & _ & ->)]]; cbn; auto.
Qed.

Lemma get_sessions_db w : db (get_sessions w).2 = db w.
Proof. by destruct (get_sessions_spec w) as (out & n & -> & _). Qed.

Lemma update_one_upsert_timestamped sid t coll :
  Forall (λ s, is_Some (sess_updated_at s)) coll →
  Forall (λ s, is_Some (sess_updated_at s)) (update_one_upsert sid t coll).
Proof.
  rewrite !Forall_forall. intros Hall s Hs.
  apply update_one_upsert_elem_of in Hs as [Hs|Hs]; [|by apply Hall].
  pose proof (update_one_upsert_spec sid t coll) as Hup.
  destruct (find_one _ coll); destruct Hup as [_ Hfind];
    rewrite Hfind in Hs; by simplify_eq.
Qed.
End invariants.

(** X22. Every handler keeps session ids unique: from a store in which
    no two sessions share an id, a chat request (however it ends), a
    deletion, an upload and the two listings lead to such a store
    again, and so does [create_session] when the id it draws is not in
    use. *)
Theorem handlers_keep_unique_session_ids (w : World) :
  unique_session_ids (db w) →
  (∀ request, unique_session_ids (db (post_chat_stream request w).2)) ∧
  (∀ session_id, unique_session_ids (db (delete_session session_id w).2)) ∧
  (∀ file, unique_session_ids (db (upload_file file w).2)) ∧
  unique_session_ids (db (get_sessions w).2) ∧
  (∀ session_id, unique_session_ids (db (get_messages session_id w).2)) ∧
  (uuid4 (platform w) (uuid_draws w) ∉ sess_id <$> sessions (db w) →
   unique_session_ids (db (create_session w).2)).
Proof.
  intros Hunique. split.
  { intros request. unfold unique_session_ids.
    destruct (post_chat_stream_sessions w request) as [-> | ->]; [done|].
    by apply update_one_upsert_unique. }
  split; [intros sid; by apply delete_session_unique_ids|].
  split; [intros file; by rewrite upload_file_unfold|].
  split; [by rewrite get_sessions_db|].
  split; [intros sid; by rewrite get_messages_unfold|].
  intros Hfresh. by apply create_session_unique_ids.
Qed.

Lemma handlers_keep_unique_session_ids_witness :
  unique_session_ids (db sample_world) ∧
  (∀ request, unique_session_ids (db (post_chat_stream request sample_world).2)) ∧
  (∀ session_id, unique_session_ids (db (delete_session session_id sample_world).2)) ∧
  (∀ file, unique_session_ids (db (upload_file file sample_world).2)) ∧
  unique_session_ids (db (get_sessions sample_world).2) ∧
  (∀ session_id, unique_session_ids (db (get_messages session_id sample_world).2)) ∧
  (uuid4 (platform sample_world) (uuid_draws sample_world)
     ∉ sess_id <$> sessions (db sample_world) →
   unique_session_ids (db (create_session sample_world).2)).
Proof.
  split; [apply (bool_decide_unpack _); vm_compute; exact I |].
  apply (handlers_keep_unique_session_ids sample_world).
  apply (bool_decide_unpack _); vm_compute; exact I.
Defined.

(** X23. Every handler that writes sessions gives them an [updated_at]:
    from a store in which every session has one, a chat request
    (however it ends), [create_session], a deletion, an upload and the
    two listings lead to such a store again. *)
Theorem handlers_keep_sessions_timestamped (w : World) :
  sessions_timestamped (db w) →
  (∀ request, sessions_timestamped (db (post_chat_stream request w).2)) ∧
  sessions_timestamped (db (create_session w).2) ∧
  (∀ session_id, sessions_timestamped (db (delete_session session_id w).2)) ∧
  (∀ file, sessions_timestamped (db (upload_file file w).2)) ∧
  sessions_timestamped (db (get_sessions w).2) ∧
  (∀ session_id, sessions_timestamped (db (get_messages session_id w).2)).
Proof.
  unfold sessions_timestamped. intros Hall. split.
  { intros request.
    destruct (post_chat_stream_sessions w request) as [-> | ->]; [done|].
    by apply update_one_upsert_timestamped. }
  split.
  { rewrite create_session_unfold. cbn. apply Forall_app. split; [done|].
    by repeat constructor. }
  split.
  { intros sid. rewrite delete_session_unfold. cbn.
    rewrite Forall_forall in *. intros s Hs. apply Hall.
    by apply delete_one_elem_of in Hs. }
  split; [intros file; by rewrite upload_file_unfold|].
  split; [by rewrite get_sessions_db|].
  intros sid. by rewrite get_messages_unfold.
Qed.

Lemma handlers_keep_sessions_timestamped_witness :
  sessions_timestamped (db (delete_session "s3" sample_world).2) ∧
  (∀ request,
     sessions_timestamped
       (db (post_chat_stream request (delete_session "s3" sample_world).2).2)) ∧
  sessions_timestamped (db (create_session (delete_session "s3" sample_world).2).2) ∧
  (∀ session_id,
     sessions_timestamped
       (db (delete_session session_id (delete_session "s3" sample_world).2).2)) ∧
  (∀ file,
     sessions_timestamped
       (db (upload_file file (delete_session "s3" sample_world).2).2)) ∧
  sessions_timestamped (db (get_sessions (delete_session "s3" sample_world).2).2) ∧
  (∀ session_id,
     sessions_timestamped
       (db (get_messages session_id (delete_session "s3" sample_world).2).2)).
Proof.
  split; [repeat constructor; vm_compute; eauto |].
  apply (handlers_keep_sessions_timestamped (delete_session "s3" sample_world).2).
  repeat constructor; vm_compute; eauto.
Defined.

(** X24. On a store in which every session has an [updated_at], as this
    program leaves it, [get_sessions] never falls back on the clock:
    every returned session has its stored [updated_at], the returned
    times are in descending order as numbers, and [created_at] is the
    stored one or else the stored [updated_at]. *)
Theorem get_sessions_timestamped (w : World) :
  sessions_timestamped (db w) →
  ∃ (out : list SessionDoc) (w' : World),
    get_sessions w = (Ok out, w') ∧
    StronglySorted
      (λ a b, ∃ ta tb, sess_updated_at a = Some ta ∧ sess_updated_at b = Some tb ∧
                       (tb <= ta)%Z) out ∧
    Forall2 (λ s o, sess_updated_at o = sess_updated_at s ∧
                    sess_created_at o =
                      match sess_created_at s with
                      | Some created_at => Some created_at
                      | None => sess_updated_at s
                      end)
      (find_sessions (db w)) out.
Proof.
  intros Htimed. destruct (get_sessions_spec w) as (out & n & Hrun & _ & Hall).
  exists out, (set_clock_reads n w). split; [exact Hrun|].
  assert (Hstored : Forall (λ s, is_Some (sess_updated_at s)) (find_sessions (db w))).
  { apply Forall_forall. intros s Hs. apply find_sessions_subseteq in Hs.
    unfold sessions_timestamped in Htimed. rewrite Forall_forall in Htimed. by apply Htimed. }
  assert (Hrel : Forall2 (λ s o, sess_updated_at o = sess_updated_at s ∧
                    sess_created_at o =
                      match sess_created_at s with
                      | Some created_at => Some created_at
                      | None => sess_updated_at s
                      end) (find_sessions (db w)) out).
  { clear Hrun. induction Hall as [|s o docs out' (_ & Hupd & _ & Hc) _ IH]; [constructor|].
    apply Forall_cons in Hstored as [[t Ht] Hstored]. constructor; [|by apply IH].
    split; [done|]. rewrite Ht in Hc. destruct (sess_created_at s); [done|].
    by rewrite Ht. }
  split; [|exact Hrel].
  assert (Hout : Forall (λ o, is_Some (sess_updated_at o)) out).
  { clear Hrun Hall. induction Hrel as [|s o docs out' [Hupd _] _ IH]; [constructor|].
    apply Forall_cons in Hstored as [Hs Hstored]. constructor; [by rewrite Hupd|by apply IH]. }
  pose proof (newer_first_transfer _ _
                (Forall2_impl _ _ _ _ Hall (λ s o H, proj1 (proj2 H)))
                (find_sessions_sorted (db w))) as Hsorted.
  clear Hrun Hall Hrel Hstored.
  induction Hsorted as [|o out' Hsorted IH Hhd]; [constructor|].
  apply Forall_cons in Hout as [[ta Hta] Hout]. constructor; [by apply IH|].
  rewrite Forall_forall in *. intros b Hb. destruct (Hout b Hb) as [tb Htb].
  specialize (Hhd b Hb). unfold newer_first in Hhd. rewrite Hta, Htb in Hhd.
  by exists ta, tb.
Qed.

Lemma get_sessions_timestamped_witness :
  sessions_timestamped (db (delete_session "s3" sample_world).2) ∧
  ∃ (out : list SessionDoc) (w' : World),
    get_sessions (delete_session "s3" sample_world).2 = (Ok out, w') ∧
    StronglySorted
      (λ a b, ∃ ta tb, sess_updated_at a = Some ta ∧ sess_updated_at b = Some tb ∧
                       (tb <= ta)%Z) out ∧
    Forall2 (λ s o, sess_updated_at o = sess_updated_at s ∧
                    sess_created_at o =
                      match sess_created_at s with
                      | Some created_at => Some created_at
                      | None => sess_updated_at s
                      end)
      (find_sessions (db (delete_session "s3" sample_world).2)) out.
Proof.
  split; [repeat constructor; vm_compute; eauto |].
  apply (get_sessions_timestamped (delete_session "s3" sample_world).2).
  repeat constructor; vm_compute; eauto.
Defined.

(** ** The session listing as the route answers it *)

Section response_model.
Implicit Types (w : World) (docs : list SessionDoc) (out : list ChatSession).

Lemma all_valid_Some {A} (items : list A) : all_valid (Some <$> items) = Some items.
Proof. induction items as [|x items IH]; [done|]. cbn. by rewrite IH. Qed.

(** On dicts that have a title and a [created_at] the response model
    only reads the clock, once for each missing [updated_at]. *)
Lemma validate_each_spec docs w :
  Forall (λ d, is_Some (sess_title d) ∧ is_Some (sess_created_at d)) docs →
  ∃ out (n : nat),
    validate_each docs w = (Ok (Some <$> out), set_clock_reads n w) ∧
    (clock_reads w ≤ n)%nat ∧
    Forall2 (λ d o,
               cs_id o = sess_id d ∧
               sess_title d = Some (cs_title o) ∧
               sess_created_at d = Some (cs_created_at o) ∧
               match sess_updated_at d with
               | Some updated_at => cs_updated_at o = updated_at
               | None => ∃ k : nat, (clock_reads w ≤ k < n)%nat ∧
                                    cs_updated_at o = clock (platform w) k
               end) docs out.
Proof.
  intros Hall. revert w. induction Hall as [|d rest [[title Ht] [c Hc]] _ IH]; intros w.
  - exists [], (clock_reads w). split; [by destruct w|]. split; [lia|constructor].
  - cbn [validate_each]. unfold validate_ChatSession. rewrite Ht, Hc.
    destruct (sess_updated_at d) as [u|] eqn:Hu.
    + destruct (IH w) as (out & n & Hrun & Hn & Hrel).
      eexists (_ :: out), n. unfold bind at 1. unfold bind at 1. unfold ret at 1.
      unfold bind at 1. unfold ret at 1. unfold ret at 1. unfold bind at 1.
      rewrite Hrun. split; [reflexivity|]. split; [done|].
      constructor; [|done]. cbn. by rewrite Hu.
    + destruct (IH (set_clock_reads (S (clock_reads w)) w)) as (out & n & Hrun & Hn & Hrel).
      cbn in Hn. eexists (_ :: out), n.
      unfold bind at 1. unfold bind at 1. unfold ret at 1.
      unfold bind at 1. unfold now at 1. unfold ret at 1. unfold bind at 1.
      rewrite Hrun. split; [reflexivity|]. split; [lia|].
      constructor.
      * cbn. rewrite Hu. repeat split; try done.
        exists (clock_reads w). split; [lia|done].
      * eapply Forall2_impl; [exact Hrel|]. intros d' o' (Hid & Htitle & Hcr & Hup).
        repeat split; try done. destruct (sess_updated_at d'); [done|].
        destruct Hup as (k & Hk & Hup). exists k. cbn in Hk. split; [lia|done].
Qed.

(** The route always answers, with one session for each record the
    query returns. *)
Lemma get_sessions_response_spec w :
  ∃ out (n : nat),
    get_sessions_response w = (Ok out, set_clock_reads n w) ∧
    Forall2 (served w (set_clock_reads n w)) (find_sessions (db w)) out.
Proof.
  destruct (get_sessions_spec w) as (mid & n1 & Hrun1 & Hn1 & Hback).
  assert (Hmid : Forall (λ d, is_Some (sess_title d) ∧ is_Some (sess_created_at d)) mid).
  { clear Hrun1. induction Hback as [|s d docs mid' (_ & _ & Htitle & Hc) _ IH];
      [constructor|]. constructor; [|exact IH]. split; [by rewrite Htitle|].
    destruct (sess_created_at s); [by rewrite Hc|].
    destruct (sess_updated_at s); [by rewrite Hc|].
    destruct Hc as (k & _ & ->). done. }
  destruct (validate_each_spec mid (set_clock_reads n1 w) Hmid)
    as (out & n & Hrun2 & Hn & Hval).
  cbn in Hn. exists out, n. split.
  { unfold get_sessions_response, bind at 1. rewrite Hrun1.
    unfold response_model_sessions, bind. rewrite Hrun2, all_valid_Some. reflexivity. }
  clear Hrun1 Hrun2 Hmid. revert out Hval.
  induction Hback as [|s d docs mid' (Hid & Hupd & Htitle & Hc) _ IH]; intros out Hval.
  { apply Forall2_nil_inv_l in Hval as ->. constructor. }
  apply Forall2_cons_inv_l in Hval as (o & out' & (Hoid & Hotitle & Hoc & Hou) & Hval & ->).
  constructor; [|by apply IH].
  split; [congruence|]. split; [rewrite Htitle in Hotitle; congruence|]. split.
  - destruct (sess_created_at s); [congruence|].
    destruct (sess_updated_at s); [congruence|].
    destruct Hc as (k & Hk & Hc). exists k. cbn in *. split; [lia|congruence].
  - rewrite Hupd in Hou. destruct (sess_updated_at s); [done|].
    destruct Hou as (k & Hk & Hou). exists k. cbn in *. split; [lia|done].
Qed.

(** The records the query returns, and those it leaves out, are the
    stored ones, and none that is left out is newer than one that is
    returned. *)
Lemma find_sessions_split (d : Db) :
  ∃ dropped,
    find_sessions d ++ dropped ≡ₚ sessions d ∧
    length (find_sessions d) = Nat.min 100 (length (sessions d)) ∧
    (∀ a b, a ∈ find_sessions d → b ∈ dropped → newer_first a b) ∧
    ((length (sessions d) ≤ 100)%nat → dropped = []).
Proof.
  exists (drop 100 (sort sess_updated_at (-1) (sessions d))).
  split; [|split; [apply find_sessions_length|split]].
  - unfold find_sessions, to_list. rewrite take_drop. apply sort_Permutation.
  - intros a b Ha Hb. unfold find_sessions, to_list in Ha.
    eapply StronglySorted_app_1_elem_of; [|exact Ha|exact Hb].
    rewrite take_drop. apply (sort_descending sess_updated_at).
  - intros Hlen. apply drop_ge. by rewrite (sort_Permutation sess_updated_at).
Qed.
End response_model.

(** C5, as amended. [GET /sessions] always answers, with one session for
    each of min(100, stored) stored records and so never more than 100;
    when every stored session has an [updated_at], as every session this
    program writes has, the answer carries the stored times and is in
    descending order of [updated_at]. *)
Theorem list_sessions_sorted_bounded (w : World) :
  ∃ (out : list ChatSession) (w' : World) (listed dropped : list SessionDoc),
    get_sessions_response w = (Ok out, w') ∧
    (length out ≤ 100)%nat ∧
    listed ++ dropped ≡ₚ sessions (db w) ∧
    length listed = Nat.min 100 (length (sessions (db w))) ∧
    Forall2 (λ s o, cs_id o = sess_id s) listed out ∧
    (sessions_timestamped (db w) →
     Forall2 (λ s o, sess_updated_at s = Some (cs_updated_at o)) listed out ∧
     StronglySorted newer_first_response out).
Proof.
  destruct (get_sessions_response_spec w) as (out & n & Hrun & Hserved).
  destruct (find_sessions_split (db w)) as (dropped & Hperm & Hlen & _ & _).
  exists out, (set_clock_reads n w), (find_sessions (db w)), dropped.
  split; [exact Hrun|].
  split; [rewrite <- (Forall2_length _ _ _ Hserved), Hlen; lia|].
  split; [exact Hperm|]. split; [exact Hlen|].
  split; [eapply Forall2_impl; [exact Hserved|]; by intros s o (Hid & _)|].
  intros Htimed.
  assert (Hstored : Forall (λ s, is_Some (sess_updated_at s)) (find_sessions (db w))).
  { apply Forall_forall. intros s Hs. apply find_sessions_subseteq in Hs.
    unfold sessions_timestamped in Htimed. rewrite Forall_forall in Htimed. by apply Htimed. }
  assert (Htimes : Forall2 (λ s o, sess_updated_at s = Some (cs_updated_at o))
                     (find_sessions (db w)) out).
  { clear Hrun Hperm Hlen. induction Hserved as [|s o docs out' (_ & _ & _ & Hu) _ IH];
      [constructor|].
    apply Forall_cons in Hstored as [[t Ht] Hstored]. constructor; [|by apply IH].
    rewrite Ht in Hu. by rewrite Ht, Hu. }
  split; [exact Htimes|].
  pose proof (find_sessions_sorted (db w)) as Hsorted.
  clear Hrun Hperm Hlen Hserved Hstored.
  induction Htimes as [|s o docs out' Hso Hrest IH]; [constructor|].
  apply StronglySorted_cons in Hsorted as [Hhd Htl]. constructor; [by apply IH|].
  clear IH Htl. induction Hrest as [|s' o' docs out' Hso' Hrest IH]; [constructor|].
  apply Forall_cons in Hhd as [Hs' Hhd]. constructor; [|by apply IH].
  unfold newer_first in Hs'. rewrite Hso, Hso' in Hs'. exact Hs'.
Qed.

Lemma list_sessions_sorted_bounded_witness :
  sessions_timestamped (db timestamped_world) ∧
  ∃ (out : list ChatSession) (w' : World),
    get_sessions_response timestamped_world = (Ok out, w') ∧
    (length out ≤ 100)%nat ∧
    StronglySorted newer_first_response out.
Proof.
  split; [repeat constructor; vm_compute; eauto |].
  destruct (list_sessions_sorted_bounded timestamped_world)
    as (out & w' & listed & dropped & Hrun & Hlen & _ & _ & _ & Hsorted).
  exists out, w'. split; [exact Hrun |]. split; [exact Hlen |].
  apply Hsorted. repeat constructor; vm_compute; eauto.
Defined.

(** C5, as it was stated, fails on a store with a record that has no
    [updated_at]: the query lists the record last, the response model
    gives it the current time, and the answer for the sample world has
    the times 9, 6, 12. *)
Lemma list_sessions_legacy_record_unsorted :
  ∃ (out : list ChatSession) (w' : World),
    get_sessions_response sample_world = (Ok out, w') ∧
    cs_updated_at <$> out = [9; 6; 12]%Z ∧
    ¬ StronglySorted newer_first_response out.
Proof.
  eexists _, _. split; [vm_compute; reflexivity|]. split; [reflexivity|].
  intros Hsorted. apply StronglySorted_cons in Hsorted as [Hhd _].
  apply Forall_cons in Hhd as [_ Hhd]. apply Forall_cons in Hhd as [Hlast _].
  unfold newer_first_response in Hlast. cbn in Hlast. lia.
Qed.

(** C9. For the stored session records, which are all of them when
    there are at most 100 and the 100 the query returns otherwise, the
    listing fills in what a record lacks, both in the dicts the handler
    returns and in the answer of the route: a missing [title] reads
    'New Chat', a missing [created_at] reads the record's [updated_at],
    or a reading of the clock taken during the call when that is missing
    too; what is stored is returned as it is; and the database after
    the call is the database before it. *)
Theorem list_sessions_backfills_on_read (w : World) :
  ∃ (listed dropped : list SessionDoc)
    (dicts : list SessionDoc) (w1 : World) (out : list ChatSession) (w2 : World),
    listed ++ dropped ≡ₚ sessions (db w) ∧
    length listed = Nat.min 100 (length (sessions (db w))) ∧
    ((length (sessions (db w)) ≤ 100)%nat → dropped = []) ∧
    get_sessions w = (Ok dicts, w1) ∧
    Forall2 (backfilled w w1) listed dicts ∧
    db w1 = db w ∧
    get_sessions_response w = (Ok out, w2) ∧
    Forall2 (served w w2) listed out ∧
    db w2 = db w.
Proof.
  destruct (find_sessions_split (db w)) as (dropped & Hperm & Hlen & _ & Hall).
  destruct (get_sessions_spec w) as (dicts & n1 & Hrun1 & _ & Hback).
  destruct (get_sessions_response_spec w) as (out & n2 & Hrun2 & Hserved).
  by exists (find_sessions (db w)), dropped, dicts, (set_clock_reads n1 w),
            out, (set_clock_reads n2 w).
Qed.

(** X16. When more than 100 sessions are stored, the stored records that
    [GET /sessions] leaves out are none of them newer than any record it
    answers for; with at most 100 stored it answers for them all. *)
Theorem list_sessions_most_recent (w : World) :
  ∃ (out : list ChatSession) (w' : World) (listed dropped : list SessionDoc),
    get_sessions_response w = (Ok out, w') ∧
    listed ++ dropped ≡ₚ sessions (db w) ∧
    length listed = Nat.min 100 (length (sessions (db w))) ∧
    Forall2 (served w w') listed out ∧
    (∀ s d, s ∈ listed → d ∈ dropped →
            bson_le (sess_updated_at d) (sess_updated_at s)) ∧
    ((length (sessions (db w)) ≤ 100)%nat → dropped = []).
Proof.
  destruct (find_sessions_split (db w)) as (dropped & Hperm & Hlen & Hnewer & Hall).
  destruct (get_sessions_response_spec w) as (out & n & Hrun & Hserved).
  by exists out, (set_clock_reads n w), (find_sessions (db w)), dropped.
Qed.

Example sample_get_sessions_response :
  (get_sessions_response sample_world).1 =
    Ok [ {| cs_id := "s1"; cs_title := "New Chat";
            cs_created_at := 2; cs_updated_at := 9 |};
         {| cs_id := "s2"; cs_title := "New Chat";
            cs_created_at := 6; cs_updated_at := 6 |};
         {| cs_id := "s3"; cs_title := "Old";
            cs_created_at := 11; cs_updated_at := 12 |} ].
Proof. vm_compute. reflexivity. Qed.
